(** * Murmurations firmware: the streaming pipeline of Firmware-idf/src/main.c

    A shallow embedding of the producer / queue / delivery code of the
    firmware: the two producers [QI2Smsg] and [QADCmsg] (called from
    [mic_task] and [adc_task]), the hand-off queue [outbound_queue], and the
    delivery path [OutBoundTask] / [send_msg] with its consecutive-failure
    counter and the shared [client_socket].

    Machine integers are [Z] with the wrap-around of their C type written
    out; bytes are [Z] in [0, 256); the C arrays are lists updated by index.
    The global variables of the program and the calls it makes to the
    outside (send, close, the log) are threaded through an explicit
    [state]. *)

From stdpp Require Import base numbers list list_numbers relations.

Local Open Scope Z_scope.

(** ** Machine integers *)

Definition to_uint8 (z : Z) : Z := z mod 2 ^ 8.
Definition to_uint16 (z : Z) : Z := z mod 2 ^ 16.
Definition to_uint32 (z : Z) : Z := z mod 2 ^ 32.
Definition to_uint64 (z : Z) : Z := z mod 2 ^ 64.

(** Conversion to a signed type of [w] bits (two's complement, as the
    compiler of the target does it). *)
Definition to_signed (w : Z) (z : Z) : Z :=
  (z + 2 ^ (w - 1)) mod 2 ^ w - 2 ^ (w - 1).

Definition to_int16 (z : Z) : Z := to_signed 16 z.
Definition to_int (z : Z) : Z := to_signed 32 z.

Definition is_int16 (z : Z) : Prop := - 2 ^ 15 <= z < 2 ^ 15.

Global Instance is_int16_dec z : Decision (is_int16 z).
Proof. unfold is_int16. apply _. Defined.

(** ** Configuration constants *)

Definition MIC_BUFFER_SIZE : Z := 256.
Definition ADC_BUFFER_SIZE : Z := 256.
Definition SOURCE_MIC : Z := 0.
Definition SOURCE_ADC : Z := 1.
Definition ESP_OK : Z := 0.

(** [MAX(MIC_BUFFER_SIZE, ADC_BUFFER_SIZE)]: the number of entries of
    [buffer_t.data]. *)
Definition DATA_CAPACITY : Z := Z.max MIC_BUFFER_SIZE ADC_BUFFER_SIZE.

(** Length of [outbound_queue] ([xQueueCreate(256, sizeof(msg_t))]). *)
Definition QUEUE_LENGTH : Z := 256.

(** ** Objects in memory

    The structs are [packed] and are sent as they lie in memory, in the
    byte order of the platform. The byte order is a parameter of the
    encoding. *)

Inductive byte_order := LittleEndian | BigEndian.

(** The [m] bytes of the [m]-byte integer [v]. *)
Definition to_bytes (bo : byte_order) (m : Z) (v : Z) : list Z :=
  match bo with
  | LittleEndian => Z_to_little_endian m 8 v
  | BigEndian => reverse (Z_to_little_endian m 8 v)
  end.

(** The unsigned integer held by the bytes [bs]. *)
Definition of_bytes (bo : byte_order) (bs : list Z) : Z :=
  match bo with
  | LittleEndian => little_endian_to_Z 8 bs
  | BigEndian => little_endian_to_Z 8 (reverse bs)
  end.

(** [packet_header_t]: [uint8_t source; uint8_t metadata; uint16_t length;
    uint64_t timestamp]. The field [length] is [length_] here, the name
    being taken by lists. *)
Record packet_header_t := mk_header {
  source : Z;
  metadata : Z;
  length_ : Z;
  timestamp : Z
}.

(** [buffer_t]: [int16_t data[MAX(..)]; size_t end]. [end] is a keyword,
    the field is [end_]. *)
Record buffer_t := mk_buffer {
  data : list Z;
  end_ : Z
}.

Record msg_t := mk_msg {
  header : packet_header_t;
  buffer : buffer_t
}.

(** A value of type [msg_t]: every field within its C type, the array with
    its declared number of entries. *)
Record msg_t_ok (m : msg_t) : Prop := {
  ok_source : 0 <= source (header m) < 2 ^ 8;
  ok_metadata : 0 <= metadata (header m) < 2 ^ 8;
  ok_length : 0 <= length_ (header m) < 2 ^ 16;
  ok_timestamp : 0 <= timestamp (header m) < 2 ^ 64;
  ok_data_len : Z.of_nat (length (data (buffer m))) = DATA_CAPACITY;
  ok_data : Forall is_int16 (data (buffer m));
  ok_end : 0 <= end_ (buffer m) < 2 ^ 32
}.

(** [sizeof(packet_header_t)] (packed: 1 + 1 + 2 + 8). *)
Definition sizeof_packet_header_t : Z := 12.

(** The bytes of a [packet_header_t] object. *)
Definition header_bytes (bo : byte_order) (h : packet_header_t) : list Z :=
  to_bytes bo 1 (source h) ++ to_bytes bo 1 (metadata h) ++
  to_bytes bo 2 (length_ h) ++ to_bytes bo 8 (timestamp h).

(** The bytes of the [int16_t] array [d]. *)
Definition samples_bytes (bo : byte_order) (d : list Z) : list Z :=
  concat (map (to_bytes bo 2) d).

(** The bytes of a [buffer_t] object: the array, then [end] ([size_t] has
    four bytes on the target). *)
Definition buffer_bytes (bo : byte_order) (b : buffer_t) : list Z :=
  samples_bytes bo (data b) ++ to_bytes bo 4 (end_ b).

(** ** The program state and its environment *)

Inductive log_line :=
| ClientDisconnected      (* ESP_LOGI(TAG, "Client disconnected.") *)
| ErrorSendingHeader      (* ESP_LOGE("SEND MSG", "Error sending header: ...") *)
| ErrorSendingData.       (* ESP_LOGE("SEND MSG", "Error sending data: ...") *)

(** What the delivery path does to the outside, in order. *)
Inductive event :=
| Send (fd : Z) (bytes : list Z) (ret : Z)   (* send(fd, bytes, len, 0) = ret *)
| Close (fd : Z)                             (* close(fd) *)
| Log (l : log_line).

(** The globals [client_socket] and [outbound_queue], the [static int
    errors] of [send_msg], and the history of calls to the outside. *)
Record state := mk_state {
  client_socket : Z;
  errors : Z;
  outbound_queue : list msg_t;
  trace : list event
}.

Definition set_client_socket (fd : Z) (st : state) : state :=
  mk_state fd (errors st) (outbound_queue st) (trace st).
Definition set_errors (e : Z) (st : state) : state :=
  mk_state (client_socket st) e (outbound_queue st) (trace st).
Definition set_outbound_queue (q : list msg_t) (st : state) : state :=
  mk_state (client_socket st) (errors st) q (trace st).
Definition emit (e : event) (st : state) : state :=
  mk_state (client_socket st) (errors st) (outbound_queue st) (trace st ++ [e]).

(** The network: what [send] returns, given everything that happened
    before, the descriptor and the bytes offered. *)
Definition network := list event -> Z -> list Z -> Z.

(** ConnectionState of the specification: [client_socket] is the handle
    when it is not negative and the sentinel [-1] (any negative value)
    otherwise. *)
Definition connected (st : state) : Prop := 0 <= client_socket st.
Definition disconnected (st : state) : Prop := client_socket st < 0.

(** ** Delivery: [send_msg] and [OutBoundTask] *)

(** [send(client_socket, bytes, len, 0)], its result stored in an [int]. *)
Definition send (net : network) (bytes : list Z) (st : state) : Z * state :=
  let ret := to_int (net (trace st) (client_socket st) bytes) in
  (ret, emit (Send (client_socket st) bytes ret) st).

(** The branch taken when a write fails; [send_msg] has it twice, once per
    write, with its own log line:
<<
        if (errors++ > 10) {
            close(client_socket);
            client_socket = -1;
            ESP_LOGI(TAG, "Client disconnected.");
        }
        ESP_LOGE("SEND MSG", "Error sending ...: errno %d", errno);
        return;
>>
    The comparison reads the value [errors] had before the increment. *)
Definition write_failed (l : log_line) (st : state) : state :=
  let old := errors st in
  let st := set_errors (to_int (old + 1)) st in
  let st :=
    if 10 <? old then
      let st := emit (Close (client_socket st)) st in
      let st := set_client_socket (-1) st in
      emit (Log ClientDisconnected) st
    else st in
  emit (Log l) st.

(** The bytes of the second write: [msg->buffer.end * sizeof(int16_t)]
    bytes (a [size_t] product) from the address of [msg->buffer]. A length
    that passes the end of the object reads memory the model does not
    have; at most the bytes of the object are taken. *)
Definition payload_bytes (bo : byte_order) (b : buffer_t) : list Z :=
  take (Z.to_nat (to_uint32 (end_ b * 2))) (buffer_bytes bo b).

Definition send_msg (bo : byte_order) (net : network) (msg : msg_t)
    (st : state) : state :=
  if client_socket st <? 0 then st else
  let '(ret, st) :=
    send net (take (Z.to_nat sizeof_packet_header_t)
                (header_bytes bo (header msg))) st in
  if ret <? 0 then write_failed ErrorSendingHeader st else
  let '(ret, st) := send net (payload_bytes bo (buffer msg)) st in
  if ret <? 0 then write_failed ErrorSendingData st else
  set_errors 0 st.

(** [OutBoundTask] creates the queue, then loops. *)
Definition OutBoundTask_init (st : state) : state :=
  set_outbound_queue [] st.

(** One turn of the loop of [OutBoundTask]: [xQueueReceive] with
    [portMAX_DELAY] waits while the queue is empty ([None]); otherwise the
    oldest message is taken out and given to [send_msg]. *)
Definition OutBoundTask_step (bo : byte_order) (net : network)
    (st : state) : option state :=
  match outbound_queue st with
  | [] => None
  | sample :: q => Some (send_msg bo net sample (set_outbound_queue q st))
  end.

(** [send_msg] on each message of [ms] in turn, as [OutBoundTask] does with
    the messages it receives. *)
Definition deliver (bo : byte_order) (net : network) (ms : list msg_t)
    (st : state) : state :=
  foldl (fun st m => send_msg bo net m st) st ms.

(** ** Producers: [QI2Smsg], [QADCmsg] and their tasks *)

(** How a call of a producer ends. *)
Inductive outcome :=
| Returned (st : state)              (* the call returned *)
| Aborted (st : state)               (* an [assert] failed: abort() *)
| Blocked (m : msg_t) (st : state).  (* waiting in [xQueueSend], queue full *)

(** [xQueueSend(outbound_queue, &sample, portMAX_DELAY)]: the message is
    copied to the back of the queue; the caller waits while the queue is
    full. *)
Definition xQueueSend (m : msg_t) (st : state) : outcome :=
  if Z.of_nat (length (outbound_queue st)) <? QUEUE_LENGTH
  then Returned (set_outbound_queue (outbound_queue st ++ [m]) st)
  else Blocked m st.

(** [a[i]] for an array of integers. A read past the end of the list has no
    defined value in C; the model gives 0 there. *)
Definition array_get (a : list Z) (i : nat) : Z := default 0 (a !! i).

(** The loop of [QI2Smsg], [skipFirst] being 1:
    [for (j = 0; j < num_samples; j++) data[j] = buffer[2 * j + skipFirst]]. *)
Definition QI2Smsg_loop (buf : list Z) (num_samples : Z) (d : list Z)
    : list Z :=
  let skipFirst := 1%nat in
  foldl (fun d j => <[ j := array_get buf (2 * j + skipFirst) ]> d) d
        (seq 0 (Z.to_nat num_samples)).

(** The local [sample] of [QI2Smsg] when it is handed to the queue.
    [sample0] is what the uninitialised local holds on entry. *)
Definition QI2Smsg_sample (sample0 : msg_t) (now : Z) (buf : list Z)
    (num_samples : Z) : msg_t :=
  mk_msg
    (mk_header (to_uint8 SOURCE_MIC) (to_uint8 0) (to_uint16 num_samples)
       (to_uint64 now))
    (mk_buffer (QI2Smsg_loop buf num_samples (data (buffer sample0)))
       (to_uint32 num_samples)).

(** [QI2Smsg(buffer, size)]; [now] is what [esp_timer_get_time()] returns.
    The [assert] is the one of a build with assertions on: when it fails
    the program aborts. *)
Definition QI2Smsg (sample0 : msg_t) (now : Z) (buf : list Z) (size : Z)
    (st : state) : outcome :=
  if client_socket st <? 0 then Returned st else
  let num_samples := Z.quot size 2 in
  if negb (num_samples <=? MIC_BUFFER_SIZE) then Aborted st else
  xQueueSend (QI2Smsg_sample sample0 now buf num_samples) st.

(** The conversion records of the ADC come from the SDK of the chip:
    [SOC_ADC_DIGI_RESULT_BYTES] and the bit-fields [type2.channel] and
    [type2.data] of [adc_digi_output_data_t], read from the bytes of one
    record. They are parameters of the model. *)
Record soc_adc := mk_soc_adc {
  SOC_ADC_DIGI_RESULT_BYTES : Z;
  type2_channel : list Z -> Z;
  type2_data : list Z -> Z
}.

(** The record at [buffer + i * SOC_ADC_DIGI_RESULT_BYTES]. *)
Definition adc_record (soc : soc_adc) (buf : list Z) (i : nat) : list Z :=
  take (Z.to_nat (SOC_ADC_DIGI_RESULT_BYTES soc))
    (drop (Z.to_nat (Z.of_nat i * SOC_ADC_DIGI_RESULT_BYTES soc)) buf).

(** [((chan & 0xF) << 12) | (data & 0x0FFF)], an unsigned value that is
    stored in an [int16_t]. *)
Definition adc_pack (chan data : Z) : Z :=
  Z.lor (Z.shiftl (Z.land chan 0xF) 12) (Z.land data 0x0FFF).

(** The loop of [QADCmsg]. *)
Definition QADCmsg_loop (soc : soc_adc) (buf : list Z) (num_conv : Z)
    (d : list Z) : list Z :=
  foldl (fun d i =>
           let p := adc_record soc buf i in
           let chan := type2_channel soc p in
           let data := type2_data soc p in
           <[ i := to_int16 (adc_pack chan data) ]> d)
        d (seq 0 (Z.to_nat num_conv)).

Definition QADCmsg_sample (soc : soc_adc) (sample0 : msg_t) (now : Z)
    (buf : list Z) (num_conv : Z) : msg_t :=
  mk_msg
    (mk_header (to_uint8 SOURCE_ADC) (to_uint8 0) (to_uint16 num_conv)
       (to_uint64 now))
    (mk_buffer (QADCmsg_loop soc buf num_conv (data (buffer sample0)))
       (to_uint32 num_conv)).

(** [QADCmsg(buffer, size)]. *)
Definition QADCmsg (soc : soc_adc) (sample0 : msg_t) (now : Z)
    (buf : list Z) (size : Z) (st : state) : outcome :=
  if client_socket st <? 0 then Returned st else
  let num_conv := Z.quot size (SOC_ADC_DIGI_RESULT_BYTES soc) in
  if negb (num_conv <=? ADC_BUFFER_SIZE) then Aborted st else
  xQueueSend (QADCmsg_sample soc sample0 now buf num_conv) st.

(** [sizeof(i2s_read_buf)], for [int16_t i2s_read_buf[MIC_BUFFER_SIZE*2]]. *)
Definition sizeof_i2s_read_buf : Z := MIC_BUFFER_SIZE * 2 * 2.

(** [sizeof(adc_dma_buf)]. *)
Definition sizeof_adc_dma_buf (soc : soc_adc) : Z :=
  ADC_BUFFER_SIZE * SOC_ADC_DIGI_RESULT_BYTES soc.

(** One turn of the loop of [mic_task]: [i2s_channel_read] has returned
    [ret], set [bytes_read] (a [size_t]) and filled [i2s_read_buf]. *)
Definition mic_task_step (sample0 : msg_t) (now : Z) (ret bytes_read : Z)
    (i2s_read_buf : list Z) (st : state) : outcome :=
  if (ret =? ESP_OK) && (0 <? bytes_read) then
    let samples := to_int (bytes_read / 2) in
    QI2Smsg sample0 now i2s_read_buf samples st
  else Returned st.

(** One turn of the loop of [adc_task]: [adc_continuous_read] has returned
    [ret], set [adc_bytes_read] (a [uint32_t]) and filled [adc_dma_buf]. *)
Definition adc_task_step (soc : soc_adc) (sample0 : msg_t) (now : Z)
    (ret adc_bytes_read : Z) (adc_dma_buf : list Z) (st : state) : outcome :=
  if (ret =? ESP_OK) && (0 <? adc_bytes_read) then
    QADCmsg soc sample0 now adc_dma_buf (to_int adc_bytes_read) st
  else Returned st.

(** The message a producer call has handed to [xQueueSend], if any: the
    one at the back of the queue when the call returned with a longer
    queue, the one it is waiting to enqueue when it is blocked. *)
Definition produced (st : state) (o : outcome) : option msg_t :=
  match o with
  | Returned st' =>
      if (length (outbound_queue st) <? length (outbound_queue st'))%nat
      then last (outbound_queue st') else None
  | Aborted _ => None
  | Blocked m _ => Some m
  end.

(** ** The Frame of the specification and the receiving side *)

Inductive Source := Audio | Adc.

Record Frame := mk_Frame {
  frame_source : Source;
  frame_metadata : Z;
  sampleCount : Z;
  frame_timestamp : Z;
  payload : list Z
}.

Definition source_code (s : Source) : Z :=
  match s with Audio => SOURCE_MIC | Adc => SOURCE_ADC end.

Definition source_of_code (c : Z) : option Source :=
  if c =? SOURCE_MIC then Some Audio
  else if c =? SOURCE_ADC then Some Adc
  else None.

(** The Frame a message stands for: the header fields, and the samples
    stored in the array ([end] of them). *)
Definition msg_frame (m : msg_t) : option Frame :=
  s ← source_of_code (source (header m));
  Some (mk_Frame s (metadata (header m)) (length_ (header m))
          (timestamp (header m))
          (take (Z.to_nat (end_ (buffer m))) (data (buffer m)))).

(** Modelled from the spec: the decoder of the wire format. The receiver is
    not part of the firmware sources; the specification fixes what it reads:
    [n] signed 16-bit samples of two bytes each, in the byte order of the
    stream, with no terminator. *)
Fixpoint decode_samples (bo : byte_order) (n : nat) (bs : list Z)
    : option (list Z * list Z) :=
  match n with
  | O => Some ([], bs)
  | S n =>
      match bs with
      | b0 :: b1 :: bs =>
          '(l, rest) ← decode_samples bo n bs;
          Some (to_int16 (of_bytes bo [b0; b1]) :: l, rest)
      | _ => None
      end
  end.

(** Modelled from the spec: the decoder of one Frame from the byte stream
    of the connection. The receiver is not part of the firmware sources;
    the specification fixes the layout: a 12-byte header, [source] (1 byte,
    0 = Audio, 1 = Adc), [metadata] (1 byte), [sampleCount] (2 bytes),
    [timestamp] (8 bytes), then [sampleCount * 2] bytes of payload whose
    length the receiver knows from the header. The result is the Frame and
    the bytes that follow it. *)
Definition decode_frame (bo : byte_order) (bs : list Z)
    : option (Frame * list Z) :=
  match bs with
  | s :: md :: l0 :: l1 :: t0 :: t1 :: t2 :: t3 :: t4 :: t5 :: t6 :: t7
      :: rest =>
      src ← source_of_code s;
      let n := of_bytes bo [l0; l1] in
      '(p, rest) ← decode_samples bo (Z.to_nat n) rest;
      Some (mk_Frame src md n (of_bytes bo [t0; t1; t2; t3; t4; t5; t6; t7]) p,
            rest)
  | _ => None
  end.

(** The bytes the firmware puts on the wire for one message: the two
    buffers [send_msg] passes to [send]. *)
Definition wire_format (bo : byte_order) (m : msg_t) : list Z :=
  take (Z.to_nat sizeof_packet_header_t) (header_bytes bo (header m)) ++
  payload_bytes bo (buffer m).

(** A message as the producers build them: a [msg_t] value that holds a
    Frame of the specification. *)
Record frame_ok (m : msg_t) : Prop := {
  frame_msg_t : msg_t_ok m;
  frame_source_ok :
    source (header m) = SOURCE_MIC \/ source (header m) = SOURCE_ADC;
  frame_metadata_ok : metadata (header m) = 0;
  frame_end : end_ (buffer m) = length_ (header m);
  frame_capacity : length_ (header m) <= DATA_CAPACITY
}.

(** ** Observations on traces *)

(** The buffers passed to [send], in order. *)
Definition writes (tr : list event) : list (list Z) :=
  omap (fun e => match e with Send _ bs _ => Some bs | _ => None end) tr.

(** The descriptors passed to [close], in order. *)
Definition closed (tr : list event) : list Z :=
  omap (fun e => match e with Close fd => Some fd | _ => None end) tr.

(** The buffers of the writes that failed ([send] returned a negative
    value), in order. *)
Definition failed_writes (tr : list event) : list (list Z) :=
  omap (fun e =>
          match e with
          | Send _ bs ret => if ret <? 0 then Some bs else None
          | _ => None
          end) tr.

(** A connection on which every write fails. *)
Definition always_fails (net : network) : Prop :=
  forall tr fd bs, - 2 ^ 31 <= net tr fd bs < 0.

(** ** The tasks together *)

(** The state when [app_main] has started the tasks and [OutBoundTask] has
    created the queue: no client, no failure counted. *)
Definition st_boot : state := OutBoundTask_init (mk_state (-1) 0 [] []).

(** [client_socket = accept(...)] in [tcp_server_task], [accept] having
    returned [fd] (negative when it failed). *)
Definition tcp_server_accept (fd : Z) (st : state) : state :=
  set_client_socket (to_int fd) st.

(** One action of one task on the shared state. The calls of the producers
    and the turn of [OutBoundTask] are taken whole; a producer that waits
    in [xQueueSend] is a call that has not been made yet. The server task
    calls [accept] only while there is no client. The locals and the blocks
    read are values of their C types. *)
Inductive action (bo : byte_order) (net : network) (soc : soc_adc)
    (st : state) : state -> Prop :=
| action_accept fd :
    disconnected st ->
    action bo net soc st (tcp_server_accept fd st)
| action_mic sample0 now ret bytes_read i2s_read_buf st' :
    msg_t_ok sample0 -> Forall is_int16 i2s_read_buf ->
    0 <= bytes_read < 2 ^ 32 ->
    mic_task_step sample0 now ret bytes_read i2s_read_buf st = Returned st' ->
    action bo net soc st st'
| action_adc sample0 now ret adc_bytes_read adc_dma_buf st' :
    msg_t_ok sample0 -> 0 <= adc_bytes_read < 2 ^ 31 ->
    adc_task_step soc sample0 now ret adc_bytes_read adc_dma_buf st
      = Returned st' ->
    action bo net soc st st'
| action_deliver st' :
    OutBoundTask_step bo net st = Some st' ->
    action bo net soc st st'.

(** The states the program can be in. *)
Definition reachable (bo : byte_order) (net : network) (soc : soc_adc)
    (st : state) : Prop :=
  rtc (action bo net soc) st_boot st.

(** What holds of the queue at all times: it holds at most its declared
    number of messages, and each of them holds a Frame. *)
Definition queue_ok (st : state) : Prop :=
  Z.of_nat (length (outbound_queue st)) <= QUEUE_LENGTH /\
  Forall frame_ok (outbound_queue st).

(** The state a call of a producer leaves behind, however it ends. *)
Definition outcome_state (o : outcome) : state :=
  match o with
  | Returned st | Aborted st | Blocked _ st => st
  end.

(** [st'] differs from [st] at most in the queue. *)
Definition same_delivery_state (st st' : state) : Prop :=
  client_socket st' = client_socket st /\
  errors st' = errors st /\
  trace st' = trace st.

(** ** Runs of the delivery task *)

(** A connection on which no write fails. *)
Definition never_fails (net : network) : Prop :=
  forall tr fd bs, 0 <= to_int (net tr fd bs).

(** The two buffers [send_msg] offers for a message when no write fails. *)
Definition msg_writes (bo : byte_order) (m : msg_t) : list (list Z) :=
  [header_bytes bo (header m); payload_bytes bo (buffer m)].

(** What the header write of [send_msg] for [m] in [st] returns. *)
Definition header_ret (bo : byte_order) (net : network) (m : msg_t)
    (st : state) : Z :=
  to_int (net (trace st) (client_socket st) (header_bytes bo (header m))).

(** What the payload write returns, when the header write did not fail. *)
Definition payload_ret (bo : byte_order) (net : network) (m : msg_t)
    (st : state) : Z :=
  to_int (net (trace st ++
                 [Send (client_socket st) (header_bytes bo (header m))
                    (header_ret bo net m st)])
            (client_socket st) (payload_bytes bo (buffer m))).

(** ** The server task: [tcp_server_task] *)

Definition SERVER_PORT : Z := 5000.

Inductive server_log :=
| UnableToCreateSocket   (* ESP_LOGE(TAG, "Unable to create socket: ...") *)
| SocketUnableToBind     (* ESP_LOGE(TAG, "Socket unable to bind: ...") *)
| ErrorDuringListen      (* ESP_LOGE(TAG, "Error during listen: ...") *)
| ServerListening        (* ESP_LOGI(TAG, "TCP server listening on port %d") *)
| UnableToAccept         (* ESP_LOGE(TAG, "Unable to accept connection: ...") *)
| ClientConnected.       (* ESP_LOGI(TAG, "Client connected.") *)

(** What the server task does to the outside, in order. *)
Inductive server_event :=
| SrvSocket (ret : Z)              (* socket(AF_INET, SOCK_STREAM, ..) = ret *)
| SrvBind (fd port ret : Z)        (* bind(fd, INADDR_ANY:port) = ret *)
| SrvListen (fd backlog ret : Z)   (* listen(fd, backlog) = ret *)
| SrvAccept (fd ret : Z)           (* accept(fd, ..) = ret *)
| SrvClose (fd : Z)                (* close(fd) *)
| SrvLog (l : server_log)
| SrvDelay (ms : Z)                (* vTaskDelay(pdMS_TO_TICKS(ms)) *)
| SrvTaskDelete.                   (* vTaskDelete(NULL) *)

(** Where the server task stands: before its set-up, about to call
    [accept], in the loop that waits for the client to go, or deleted. *)
Inductive server_at := AtStart | AtAccept | AtWait | Deleted.

(** The global [server_socket], the place of the task in its code, and
    the history of its calls. *)
Record server := mk_server {
  server_socket : Z;
  at_ : server_at;
  server_trace : list server_event
}.

Definition set_server_socket (fd : Z) (srv : server) : server :=
  mk_server fd (at_ srv) (server_trace srv).
Definition set_at (a : server_at) (srv : server) : server :=
  mk_server (server_socket srv) a (server_trace srv).
Definition srv_emit (e : server_event) (srv : server) : server :=
  mk_server (server_socket srv) (at_ srv) (server_trace srv ++ [e]).

(** [tcp_server_task] from its first line to the head of [while (1)]:
    [socket], [bind], [listen], each of which ends the task when it fails.
    The three arguments are what the calls return (the later ones are not
    looked at when an earlier call has failed). *)
Definition tcp_server_setup (socket_ret bind_ret listen_ret : Z)
    (srv : server) : server :=
  let srv := set_server_socket (to_int socket_ret) srv in
  let srv := srv_emit (SrvSocket (server_socket srv)) srv in
  if server_socket srv <? 0 then
    let srv := srv_emit (SrvLog UnableToCreateSocket) srv in
    let srv := srv_emit SrvTaskDelete srv in
    set_at Deleted srv
  else
  let ret := to_int bind_ret in
  let srv := srv_emit (SrvBind (server_socket srv) SERVER_PORT ret) srv in
  if ret <? 0 then
    let srv := srv_emit (SrvLog SocketUnableToBind) srv in
    let srv := srv_emit (SrvClose (server_socket srv)) srv in
    let srv := srv_emit SrvTaskDelete srv in
    set_at Deleted srv
  else
  let ret := to_int listen_ret in
  let srv := srv_emit (SrvListen (server_socket srv) 1 ret) srv in
  if ret <? 0 then
    let srv := srv_emit (SrvLog ErrorDuringListen) srv in
    let srv := srv_emit (SrvClose (server_socket srv)) srv in
    let srv := srv_emit SrvTaskDelete srv in
    set_at Deleted srv
  else
  let srv := srv_emit (SrvLog ServerListening) srv in
  set_at AtAccept srv.

(** One step of the loops of [tcp_server_task]:
<<
    while (1) {
        client_socket = accept(server_socket, ...);
        if (client_socket < 0) { ESP_LOGE(...); break; }
        ESP_LOGI(TAG, "Client connected.");
        while (client_socket >= 0) { vTaskDelay(pdMS_TO_TICKS(100)); }
    }
    close(server_socket);
    vTaskDelete(NULL);
>>
    At [AtAccept] the call of [accept] returns [accept_ret]; at [AtWait]
    the test of the inner loop is made once. *)
Definition tcp_server_task_step (accept_ret : Z) (s : server * state)
    : server * state :=
  let '(srv, st) := s in
  match at_ srv with
  | AtAccept =>
      let st := tcp_server_accept accept_ret st in
      let srv := srv_emit (SrvAccept (server_socket srv) (client_socket st)) srv in
      if client_socket st <? 0 then
        let srv := srv_emit (SrvLog UnableToAccept) srv in
        let srv := srv_emit (SrvClose (server_socket srv)) srv in
        let srv := srv_emit SrvTaskDelete srv in
        (set_at Deleted srv, st)
      else
        let srv := srv_emit (SrvLog ClientConnected) srv in
        (set_at AtWait srv, st)
  | AtWait =>
      if 0 <=? client_socket st
      then (srv_emit (SrvDelay 100) srv, st)
      else (set_at AtAccept srv, st)
  | AtStart | Deleted => (srv, st)
  end.

(** The descriptors of the clients [accept] has handed out, in order. *)
Definition accepted (tr : list server_event) : list Z :=
  omap (fun e =>
          match e with
          | SrvAccept _ ret => if ret <? 0 then None else Some ret
          | _ => None
          end) tr.

(** Every call of [accept] the server task has made, in order: the
    listening descriptor it was made on and what it returned. *)
Definition accept_calls (tr : list server_event) : list (Z * Z) :=
  omap (fun e =>
          match e with
          | SrvAccept fd ret => Some (fd, ret)
          | _ => None
          end) tr.

(** The descriptors the server task has closed, in order. *)
Definition srv_closed (tr : list server_event) : list Z :=
  omap (fun e => match e with SrvClose fd => Some fd | _ => None end) tr.

(** The client, if one is connected. *)
Definition current_client (st : state) : list Z :=
  if client_socket st <? 0 then [] else [client_socket st].

(** The descriptors handed out by [accept] and those closed by
    [send_msg] match, but for the client that is connected; and the server
    is in its waiting loop whenever a client is connected. *)
Definition clients_accounted (s : server * state) : Prop :=
  accepted (server_trace s.1) = closed (trace s.2) ++ current_client s.2 /\
  (at_ s.1 <> AtWait -> disconnected s.2).

(** Once the server task is deleted and no client is connected, the
    server task and the connection stay as they are. *)
Definition service_down (srv : server) (st : state) (s : server * state)
    : Prop :=
  s.1 = srv /\ same_delivery_state st s.2.

(** ** The whole program *)

(** One call of a producer task or one turn of the delivery task, on the
    shared state (as in [action], without the server). A call of a
    producer is one step here, while in the firmware the task can be
    interrupted between its test of [client_socket] and its [xQueueSend];
    what is stated over this relation is about [client_socket], the
    failure counter, the calls to the outside and the form of the queued
    messages, none of which depends on when that [xQueueSend] happens. *)
Inductive task_action (bo : byte_order) (net : network) (soc : soc_adc)
    (st : state) : state -> Prop :=
| task_mic sample0 now ret bytes_read i2s_read_buf st' :
    msg_t_ok sample0 -> Forall is_int16 i2s_read_buf ->
    0 <= bytes_read < 2 ^ 32 ->
    mic_task_step sample0 now ret bytes_read i2s_read_buf st = Returned st' ->
    task_action bo net soc st st'
| task_adc sample0 now ret adc_bytes_read adc_dma_buf st' :
    msg_t_ok sample0 -> 0 <= adc_bytes_read < 2 ^ 31 ->
    adc_task_step soc sample0 now ret adc_bytes_read adc_dma_buf st
      = Returned st' ->
    task_action bo net soc st st'
| task_deliver st' :
    OutBoundTask_step bo net st = Some st' ->
    task_action bo net soc st st'.

(** One step of the program: the server task sets itself up, or takes a
    step of its loops, or another task acts. *)
Inductive system_step (bo : byte_order) (net : network) (soc : soc_adc)
    : server * state -> server * state -> Prop :=
| step_setup srv st socket_ret bind_ret listen_ret :
    at_ srv = AtStart ->
    system_step bo net soc (srv, st)
      (tcp_server_setup socket_ret bind_ret listen_ret srv, st)
| step_server srv st accept_ret :
    system_step bo net soc (srv, st)
      (tcp_server_task_step accept_ret (srv, st))
| step_task srv st st' :
    task_action bo net soc st st' ->
    system_step bo net soc (srv, st) (srv, st').

(** The server task as [app_main] creates it: [server_socket] is -1. *)
Definition server_boot : server := mk_server (-1) AtStart [].

Definition system_reachable (bo : byte_order) (net : network)
    (soc : soc_adc) (s : server * state) : Prop :=
  rtc (system_step bo net soc) (server_boot, st_boot) s.

(** ** The loops of the producers, as one scheme *)

(** Both producers run [for (j = 0; j < n; j++) data[j] = f j]. *)
Definition fill (f : nat -> Z) (n : nat) (d : list Z) : list Z :=
  foldl (fun d j => <[ j := f j ]> d) d (seq 0 n).

(** ** Sample values *)

(** A local [msg_t] before anything is stored in it. *)
Definition sample_blank : msg_t :=
  mk_msg (mk_header 0 0 0 0) (mk_buffer (replicate 256 0) 0).

(** A client is connected on descriptor 3, nothing has happened yet. *)
Definition st_connected : state := mk_state 3 0 [] [].

(** No client. *)
Definition st_disconnected : state := mk_state (-1) 0 [] [].

(** A connection on which [send] always returns -1. *)
Definition net_down : network := fun _ _ _ => -1.

(** A connection on which [send] takes all the bytes it is given. *)
Definition net_up : network := fun _ _ bs => Z.of_nat (length bs).

(** A message that holds an audio Frame of two samples. *)
Definition msg_small : msg_t :=
  mk_msg (mk_header SOURCE_MIC 0 2 1000)
    (mk_buffer ([11; -13] ++ replicate 254 0) 2).

(** A raw block of 512 samples, [0, 1, ..., 511]. *)
Definition raw_ramp : list Z := Z.of_nat <$> seq 0 512.

(** An ADC block of one record, on the layout below: channel 2, data
    [0xABC]. *)
Definition adc_one_record : list Z := [0xBC; 0x4A; 0; 0].

(** The conversion record of the ESP32-S3: four bytes holding a
    little-endian word with [data] in bits 0-11 and [channel] in bits
    13-16. *)
Definition esp32s3 : soc_adc :=
  mk_soc_adc 4
    (fun p => Z.land (Z.shiftr (of_bytes LittleEndian p) 13) 0xF)
    (fun p => Z.land (of_bytes LittleEndian p) 0xFFF).

(** * Properties *)

(** ** Checks on concrete values *)

Example header_bytes_little_endian :
  header_bytes LittleEndian (mk_header 1 0 0x0102 0x0807060504030201)
    = [1; 0; 2; 1; 1; 2; 3; 4; 5; 6; 7; 8].
Proof. reflexivity. Qed.

Example header_bytes_big_endian :
  header_bytes BigEndian (mk_header 1 0 0x0102 0x0807060504030201)
    = [1; 0; 1; 2; 8; 7; 6; 5; 4; 3; 2; 1].
Proof. reflexivity. Qed.

Example adc_pack_2_abc : adc_pack 2 0xABC = 0x2ABC.
Proof. reflexivity. Qed.

(** From channel 8 on, the packed value read as an [int16_t] is negative. *)
Example adc_sample_channel_8 : to_int16 (adc_pack 8 0xABC) = 0x8ABC - 2 ^ 16.
Proof. reflexivity. Qed.

Example esp32s3_one_record :
  type2_channel esp32s3 (adc_record esp32s3 adc_one_record 0) = 2 /\
  type2_data esp32s3 (adc_record esp32s3 adc_one_record 0) = 0xABC.
Proof. by vm_compute. Qed.

Example QI2Smsg_six_samples :
  let m := QI2Smsg_sample sample_blank 1000 [10; 11; 12; 13; 14; 15] 3 in
  header m = mk_header 0 0 3 1000 /\
  take 4 (data (buffer m)) = [11; 13; 15; 0] /\
  payload_bytes LittleEndian (buffer m) = [11; 0; 13; 0; 15; 0].
Proof. by vm_compute. Qed.

(** A negative [size] passes the [assert]; the two counts then differ.
    The tasks never pass one. *)
Example QI2Smsg_negative_size :
  let m := QI2Smsg_sample sample_blank 0 [] (Z.quot (-2) 2) in
  QI2Smsg sample_blank 0 [] (-2) st_connected = xQueueSend m st_connected /\
  length_ (header m) = 65535 /\ end_ (buffer m) = 4294967295.
Proof. by vm_compute. Qed.

(** The counter outlives the connection: after the disconnection at the
    twelfth failure and a new client, one failed write closes the new
    connection at once. *)
Example stale_counter_after_reconnect :
  let st := deliver LittleEndian net_down (replicate 12 msg_small)
              st_connected in
  let st := tcp_server_accept 4 st in
  let st := send_msg LittleEndian net_down msg_small st in
  client_socket st = -1 /\ errors st = 13 /\ closed (trace st) = [3; 4].
Proof. by vm_compute. Qed.

(** ** Machine integers *)

Lemma to_int_small z : - 2 ^ 31 <= z < 2 ^ 31 -> to_int z = z.
Proof.
  intros Hz. unfold to_int, to_signed.
  rewrite Z.mod_small; lia.
Qed.

Lemma to_int16_small z : is_int16 z -> to_int16 z = z.
Proof.
  unfold is_int16. intros Hz. unfold to_int16, to_signed.
  rewrite Z.mod_small; lia.
Qed.

Lemma to_int16_range z : is_int16 (to_int16 z).
Proof.
  unfold is_int16, to_int16, to_signed.
  pose proof (Z.mod_pos_bound (z + 2 ^ (16 - 1)) (2 ^ 16)). lia.
Qed.

Lemma to_int16_to_uint16 z : is_int16 z -> to_int16 (to_uint16 z) = z.
Proof.
  unfold is_int16, to_int16, to_uint16, to_signed. intros Hz.
  rewrite Zplus_mod_idemp_l. rewrite Z.mod_small; lia.
Qed.

Lemma to_uint16_to_int16 z : to_uint16 (to_int16 z) = to_uint16 z.
Proof.
  unfold to_int16, to_uint16, to_signed.
  rewrite Zminus_mod_idemp_l. f_equal. lia.
Qed.

(** Settles a comparison [a <? b] that the hypotheses decide. *)
Ltac decide_ltb :=
  match goal with
  | |- context [?a <? ?b] =>
      first [ rewrite (proj2 (Z.ltb_lt a b)) by lia
            | rewrite (proj2 (Z.ltb_ge a b)) by lia ]
  end.

(** ** Delivery *)

Section delivery.
Context (bo : byte_order) (net : network).

Lemma send_msg_disconnected m st :
  disconnected st -> send_msg bo net m st = st.
Proof.
  unfold disconnected, send_msg. intros Hd.
  destruct (Z.ltb_spec (client_socket st) 0); [done | lia].
Qed.

Lemma deliver_disconnected ms st :
  disconnected st -> deliver bo net ms st = st.
Proof.
  intros Hd. induction ms as [|m ms IH]; [done|].
  unfold deliver in *. simpl. by rewrite send_msg_disconnected.
Qed.

(** One call of [send_msg] on a connection whose writes fail: the header
    write is the only one, and the failure branch runs once. *)
Lemma send_msg_fails m st :
  always_fails net -> connected st ->
  send_msg bo net m st =
    write_failed ErrorSendingHeader
      (snd (send net (take (Z.to_nat sizeof_packet_header_t)
                        (header_bytes bo (header m))) st)).
Proof.
  unfold connected, send_msg. intros Hnet Hc.
  destruct (Z.ltb_spec (client_socket st) 0); [lia|].
  unfold send. cbv zeta.
  set (r := net _ _ _). pose proof (Hnet (trace st) (client_socket st)
    (take (Z.to_nat sizeof_packet_header_t) (header_bytes bo (header m))))
    as Hr. fold r in Hr.
  rewrite (to_int_small r) by lia.
  destruct (Z.ltb_spec r 0); [done | lia].
Qed.

(** Below the threshold a failure only counts. *)
Lemma send_msg_fails_below m st :
  always_fails net -> connected st -> 0 <= errors st <= 10 ->
  let st' := send_msg bo net m st in
  client_socket st' = client_socket st /\
  errors st' = errors st + 1 /\
  outbound_queue st' = outbound_queue st /\
  closed (trace st') = closed (trace st) /\
  length (failed_writes (trace st')) =
    S (length (failed_writes (trace st))).
Proof.
  intros Hnet Hc He. cbv zeta. rewrite send_msg_fails by done.
  unfold write_failed, send. cbn [snd emit set_errors errors client_socket
    outbound_queue trace].
  decide_ltb.
  cbn [snd emit set_errors errors client_socket outbound_queue trace].
  rewrite to_int_small by lia.
  unfold closed, failed_writes. rewrite !omap_app. cbn [omap list_omap].
  set (r := net _ _ _). pose proof (Hnet (trace st) (client_socket st)
    (take (Z.to_nat sizeof_packet_header_t) (header_bytes bo (header m))))
    as Hr. fold r in Hr.
  rewrite (to_int_small r) by lia. decide_ltb.
  rewrite !app_nil_r, !length_app. simpl. repeat split; lia.
Qed.

(** Once the counter has passed ten, the next failure closes the
    connection; the counter keeps counting. *)
Lemma send_msg_fails_above m st :
  always_fails net -> connected st -> 10 < errors st < 2 ^ 31 - 1 ->
  let st' := send_msg bo net m st in
  client_socket st' = -1 /\
  errors st' = errors st + 1 /\
  outbound_queue st' = outbound_queue st /\
  closed (trace st') = closed (trace st) ++ [client_socket st] /\
  length (failed_writes (trace st')) =
    S (length (failed_writes (trace st))).
Proof.
  intros Hnet Hc He. cbv zeta. rewrite send_msg_fails by done.
  unfold write_failed, send. cbn [snd emit set_errors errors client_socket
    outbound_queue trace].
  decide_ltb.
  cbn [snd emit set_errors set_client_socket errors client_socket
    outbound_queue trace].
  rewrite to_int_small by lia.
  unfold closed, failed_writes. rewrite !omap_app. cbn [omap list_omap].
  set (r := net _ _ _). pose proof (Hnet (trace st) (client_socket st)
    (take (Z.to_nat sizeof_packet_header_t) (header_bytes bo (header m))))
    as Hr. fold r in Hr.
  rewrite (to_int_small r) by lia. decide_ltb.
  rewrite !app_nil_r, !length_app. simpl. repeat split; lia.
Qed.

(** A run of failures, from any value of the counter below the point of
    disconnection: [12 - errors] more failures are needed. *)
Lemma deliver_fails ms :
  forall st,
  always_fails net -> connected st -> 0 <= errors st <= 11 ->
  let st' := deliver bo net ms st in
  let left := Z.to_nat (12 - errors st) in
  ((length ms < left)%nat ->
     client_socket st' = client_socket st /\
     errors st' = errors st + Z.of_nat (length ms) /\
     closed (trace st') = closed (trace st) /\
     length (failed_writes (trace st')) =
       (length (failed_writes (trace st)) + length ms)%nat) /\
  ((left <= length ms)%nat ->
     client_socket st' = -1 /\
     errors st' = 12 /\
     closed (trace st') = closed (trace st) ++ [client_socket st] /\
     length (failed_writes (trace st')) =
       (length (failed_writes (trace st)) + left)%nat).
Proof.
  induction ms as [|m ms IH]; intros st Hnet Hc He; cbv zeta.
  - cbn [deliver foldl length]. split; intros Hlen; [|lia].
    repeat split; lia.
  - change (deliver bo net (m :: ms) st)
      with (deliver bo net ms (send_msg bo net m st)).
    destruct (decide (errors st <= 10)) as [Hlow|Hhigh].
    + destruct (send_msg_fails_below m st) as (Hs & Hn & _ & Hcl & Hfw);
        [done | done | lia |].
      destruct (IH (send_msg bo net m st)) as [IHlt IHge];
        [done | unfold connected in *; lia | lia |].
      rewrite Hs, Hn, Hcl, Hfw in *. cbn [length].
      split; intros Hlen.
      * destruct IHlt as (? & ? & ? & ?); [lia|]. repeat split; try lia.
        done.
      * destruct IHge as (? & ? & ? & ?); [lia|]. repeat split; try lia.
        done.
    + destruct (send_msg_fails_above m st) as (Hs & Hn & _ & Hcl & Hfw);
        [done | done | lia |].
      rewrite deliver_disconnected by (unfold disconnected; lia).
      cbn [length]. split; intros Hlen; [lia|].
      repeat split; try lia. done.
Qed.

End delivery.

(** ** The loops that fill [sample.buffer.data] *)

Lemma fill_S f n d : fill f (S n) d = <[ n := f n ]> (fill f n d).
Proof. unfold fill. by rewrite seq_S, foldl_snoc. Qed.

Lemma length_fill f n d : length (fill f n d) = length d.
Proof.
  induction n as [|n IH]; [done|].
  by rewrite fill_S, length_insert.
Qed.

Lemma fill_lookup_lt f n d j :
  (j < n)%nat -> (n <= length d)%nat -> fill f n d !! j = Some (f j).
Proof.
  induction n as [|n IH]; intros Hj Hn; [lia|].
  rewrite fill_S. destruct (decide (j = n)) as [->|Hne].
  - apply list_lookup_insert_eq. rewrite length_fill. lia.
  - rewrite list_lookup_insert_ne by done. apply IH; lia.
Qed.

Lemma fill_lookup_ge f n d j :
  (n <= j)%nat -> fill f n d !! j = d !! j.
Proof.
  induction n as [|n IH]; intros Hj; [done|].
  rewrite fill_S, list_lookup_insert_ne by lia. apply IH; lia.
Qed.

Lemma take_fill f n d :
  (n <= length d)%nat -> take n (fill f n d) = f <$> seq 0 n.
Proof.
  intros Hn. apply list_eq. intros j.
  destruct (decide (j < n)%nat) as [Hj|Hj].
  - rewrite lookup_take_lt, fill_lookup_lt by done.
    rewrite list_lookup_fmap, lookup_seq_lt by done. done.
  - rewrite lookup_take_ge by lia. symmetry. apply lookup_ge_None_2.
    rewrite length_fmap, length_seq. lia.
Qed.

Lemma Forall_fill (P : Z -> Prop) f n d :
  (forall j, (j < n)%nat -> P (f j)) -> Forall P d -> Forall P (fill f n d).
Proof.
  induction n as [|n IH]; intros Hf Hd; [done|].
  rewrite fill_S. apply Forall_insert; [apply IH; auto with lia | auto].
Qed.

Lemma QI2Smsg_loop_fill buf num_samples d :
  QI2Smsg_loop buf num_samples d =
    fill (fun j => array_get buf (2 * j + 1)) (Z.to_nat num_samples) d.
Proof. done. Qed.

Lemma QADCmsg_loop_fill soc buf num_conv d :
  QADCmsg_loop soc buf num_conv d =
    fill (fun i => to_int16 (adc_pack (type2_channel soc (adc_record soc buf i))
                               (type2_data soc (adc_record soc buf i))))
      (Z.to_nat num_conv) d.
Proof. done. Qed.

(** ** The packing of a conversion record *)

Lemma adc_pack_range chan dat : 0 <= adc_pack chan dat < 2 ^ 16.
Proof.
  unfold adc_pack.
  change 0xF with (Z.ones 4). change 0x0FFF with (Z.ones 12).
  rewrite !Z.land_ones, Z.shiftl_mul_pow2 by lia.
  pose proof (Z.mod_pos_bound chan (2 ^ 4)).
  pose proof (Z.mod_pos_bound dat (2 ^ 12)).
  set (a := chan `mod` 2 ^ 4 * 2 ^ 12). set (b := dat `mod` 2 ^ 12).
  assert (0 <= a <= 15 * 2 ^ 12) by (unfold a; lia).
  assert (0 <= b < 2 ^ 12) by (unfold b; lia).
  pose proof (Z.add_lor_land a b).
  assert (0 <= Z.land a b) by (apply Z.land_nonneg; lia).
  assert (0 <= Z.lor a b) by (apply Z.lor_nonneg; lia).
  lia.
Qed.

(** The sixteen bits stored are those of the packed value. *)
Lemma to_uint16_adc_sample chan dat :
  to_uint16 (to_int16 (adc_pack chan dat)) = adc_pack chan dat.
Proof.
  rewrite to_uint16_to_int16. unfold to_uint16.
  apply Z.mod_small, adc_pack_range.
Qed.

(** ** Bytes of integers *)

Lemma length_to_bytes bo m v :
  0 <= m -> length (to_bytes bo m v) = Z.to_nat m.
Proof.
  intros Hm. pose proof (length_Z_to_little_endian m 8 v Hm) as Hlen.
  destruct bo; unfold to_bytes; rewrite ?length_reverse; lia.
Qed.

Lemma of_bytes_to_bytes bo m v :
  0 <= m -> of_bytes bo (to_bytes bo m v) = v mod 2 ^ (m * 8).
Proof.
  intros Hm. destruct bo; unfold of_bytes, to_bytes;
    rewrite ?reverse_involutive;
    apply little_endian_to_Z_to_little_endian; lia.
Qed.

Lemma to_bytes_1 bo v : to_bytes bo 1 v = [to_uint8 v].
Proof.
  assert (Z_to_little_endian 1 8 v = [to_uint8 v]) as Hle.
  { change 1 with (Z.succ 0).
    rewrite Z_to_little_endian_succ, Z_to_little_endian_0 by lia.
    by rewrite Z.land_ones by lia. }
  destruct bo; unfold to_bytes; by rewrite Hle.
Qed.

Lemma to_bytes_2 bo v : exists b0 b1, to_bytes bo 2 v = [b0; b1].
Proof.
  pose proof (length_to_bytes bo 2 v) as Hlen.
  destruct (to_bytes bo 2 v) as [|b0 [|b1 [|? ?]]]; simpl in Hlen;
    try lia. eauto.
Qed.

Lemma to_bytes_8 bo v :
  exists t0 t1 t2 t3 t4 t5 t6 t7,
    to_bytes bo 8 v = [t0; t1; t2; t3; t4; t5; t6; t7].
Proof.
  pose proof (length_to_bytes bo 8 v) as Hlen.
  destruct (to_bytes bo 8 v)
    as [|t0 [|t1 [|t2 [|t3 [|t4 [|t5 [|t6 [|t7 [|? ?]]]]]]]]];
    simpl in Hlen; try lia.
  by exists t0, t1, t2, t3, t4, t5, t6, t7.
Qed.

Lemma length_header_bytes bo h :
  Z.of_nat (length (header_bytes bo h)) = sizeof_packet_header_t.
Proof.
  unfold header_bytes. rewrite !length_app, !length_to_bytes by lia. done.
Qed.

Lemma take_header_bytes bo h :
  take (Z.to_nat sizeof_packet_header_t) (header_bytes bo h) =
    header_bytes bo h.
Proof.
  apply take_ge. pose proof (length_header_bytes bo h). lia.
Qed.

Lemma length_samples_bytes bo d :
  length (samples_bytes bo d) = (2 * length d)%nat.
Proof.
  unfold samples_bytes. induction d as [|v d IH]; [done|].
  cbn [map concat length]. rewrite length_app, IH, length_to_bytes by lia.
  lia.
Qed.

Lemma samples_bytes_app bo d1 d2 :
  samples_bytes bo (d1 ++ d2) = samples_bytes bo d1 ++ samples_bytes bo d2.
Proof. unfold samples_bytes. by rewrite map_app, concat_app. Qed.

(** The first [2 * n] bytes of a [buffer_t] object are the first [n]
    entries of its array, as long as [n] does not pass the array. *)
Lemma take_buffer_bytes bo b n :
  (n <= length (data b))%nat ->
  take (2 * n) (buffer_bytes bo b) = samples_bytes bo (take n (data b)).
Proof.
  intros Hn. unfold buffer_bytes.
  rewrite <- (take_drop n (data b)) at 1.
  rewrite samples_bytes_app, <- app_assoc.
  apply take_app_length'. rewrite length_samples_bytes, length_take. lia.
Qed.

Lemma payload_bytes_samples bo b :
  0 <= end_ b <= Z.of_nat (length (data b)) -> end_ b * 2 < 2 ^ 32 ->
  payload_bytes bo b = samples_bytes bo (take (Z.to_nat (end_ b)) (data b)).
Proof.
  intros He Hsz. unfold payload_bytes, to_uint32.
  rewrite Z.mod_small by lia.
  replace (Z.to_nat (end_ b * 2)) with (2 * Z.to_nat (end_ b))%nat by lia.
  apply take_buffer_bytes. lia.
Qed.

(** ** The decoder undoes the encoding of the samples *)

Lemma decode_samples_bytes bo d rest :
  Forall is_int16 d ->
  decode_samples bo (length d) (samples_bytes bo d ++ rest) = Some (d, rest).
Proof.
  induction 1 as [|v d Hv Hd IH]; [done|].
  unfold samples_bytes in *. cbn [map concat length decode_samples].
  pose proof (of_bytes_to_bytes bo 2 v) as Hof.
  destruct (to_bytes_2 bo v) as (b0 & b1 & Hb). rewrite Hb in *.
  cbn [app]. rewrite IH. cbn. rewrite Hof by lia.
  change (v `mod` 2 ^ (2 * 8)) with (to_uint16 v).
  by rewrite to_int16_to_uint16.
Qed.

(** ** Producers *)

Lemma produced_xQueueSend m st : produced st (xQueueSend m st) = Some m.
Proof.
  unfold xQueueSend.
  destruct (Z.ltb_spec (Z.of_nat (length (outbound_queue st))) QUEUE_LENGTH);
    [|done].
  cbn [produced set_outbound_queue outbound_queue].
  rewrite length_app, last_snoc. cbn [length].
  by rewrite (proj2 (Nat.ltb_lt _ _)) by lia.
Qed.

Lemma produced_Returned_same st : produced st (Returned st) = None.
Proof. cbn [produced]. by rewrite Nat.ltb_irrefl. Qed.

Section producers.
Context (soc : soc_adc) (sample0 : msg_t) (now : Z).

Lemma QI2Smsg_disconnected buf size st :
  disconnected st -> QI2Smsg sample0 now buf size st = Returned st.
Proof. unfold disconnected, QI2Smsg. intros Hd. by decide_ltb. Qed.

Lemma QADCmsg_disconnected buf size st :
  disconnected st -> QADCmsg soc sample0 now buf size st = Returned st.
Proof. unfold disconnected, QADCmsg. intros Hd. by decide_ltb. Qed.

Lemma QI2Smsg_aborts buf size st :
  connected st -> MIC_BUFFER_SIZE < Z.quot size 2 ->
  QI2Smsg sample0 now buf size st = Aborted st.
Proof.
  unfold connected, QI2Smsg. intros Hc Hn. decide_ltb.
  by rewrite (proj2 (Z.leb_gt _ _)) by lia.
Qed.

Lemma QADCmsg_aborts buf size st :
  connected st ->
  ADC_BUFFER_SIZE < Z.quot size (SOC_ADC_DIGI_RESULT_BYTES soc) ->
  QADCmsg soc sample0 now buf size st = Aborted st.
Proof.
  unfold connected, QADCmsg. intros Hc Hn. decide_ltb.
  by rewrite (proj2 (Z.leb_gt _ _)) by lia.
Qed.

Lemma QI2Smsg_sends buf size st :
  connected st -> Z.quot size 2 <= MIC_BUFFER_SIZE ->
  QI2Smsg sample0 now buf size st =
    xQueueSend (QI2Smsg_sample sample0 now buf (Z.quot size 2)) st.
Proof.
  unfold connected, QI2Smsg. intros Hc Hn. decide_ltb.
  by rewrite (proj2 (Z.leb_le _ _)) by lia.
Qed.

Lemma QADCmsg_sends buf size st :
  connected st ->
  Z.quot size (SOC_ADC_DIGI_RESULT_BYTES soc) <= ADC_BUFFER_SIZE ->
  QADCmsg soc sample0 now buf size st =
    xQueueSend
      (QADCmsg_sample soc sample0 now buf
         (Z.quot size (SOC_ADC_DIGI_RESULT_BYTES soc))) st.
Proof.
  unfold connected, QADCmsg. intros Hc Hn. decide_ltb.
  by rewrite (proj2 (Z.leb_le _ _)) by lia.
Qed.

(** What a call of [QI2Smsg] has handed to the queue, read backwards. *)
Lemma QI2Smsg_produced buf size st m :
  produced st (QI2Smsg sample0 now buf size st) = Some m ->
  connected st /\ Z.quot size 2 <= MIC_BUFFER_SIZE /\
  m = QI2Smsg_sample sample0 now buf (Z.quot size 2).
Proof.
  intros Hp.
  destruct (decide (client_socket st < 0)) as [Hd|Hc].
  { rewrite QI2Smsg_disconnected, produced_Returned_same in Hp; done. }
  destruct (decide (Z.quot size 2 <= MIC_BUFFER_SIZE)) as [Hn|Hn].
  - rewrite QI2Smsg_sends, produced_xQueueSend in Hp
      by (unfold connected; lia).
    unfold connected. split_and!; [lia | done | congruence].
  - rewrite QI2Smsg_aborts in Hp by (unfold connected; lia). done.
Qed.

Lemma QADCmsg_produced buf size st m :
  produced st (QADCmsg soc sample0 now buf size st) = Some m ->
  connected st /\
  Z.quot size (SOC_ADC_DIGI_RESULT_BYTES soc) <= ADC_BUFFER_SIZE /\
  m = QADCmsg_sample soc sample0 now buf
        (Z.quot size (SOC_ADC_DIGI_RESULT_BYTES soc)).
Proof.
  intros Hp.
  destruct (decide (client_socket st < 0)) as [Hd|Hc].
  { rewrite QADCmsg_disconnected, produced_Returned_same in Hp; done. }
  destruct (decide (Z.quot size (SOC_ADC_DIGI_RESULT_BYTES soc)
                      <= ADC_BUFFER_SIZE)) as [Hn|Hn].
  - rewrite QADCmsg_sends, produced_xQueueSend in Hp
      by (unfold connected; lia).
    unfold connected. split_and!; [lia | done | congruence].
  - rewrite QADCmsg_aborts in Hp by (unfold connected; lia). done.
Qed.

(** [mic_task] passes a count that is never negative: [bytes_read] is a
    [size_t] and is halved before it becomes an [int]. *)
Lemma mic_task_step_produced ret bytes_read buf st m :
  0 <= bytes_read < 2 ^ 32 ->
  produced st (mic_task_step sample0 now ret bytes_read buf st) = Some m ->
  connected st /\ 0 < bytes_read /\
  bytes_read / 2 / 2 <= MIC_BUFFER_SIZE /\
  m = QI2Smsg_sample sample0 now buf (bytes_read / 2 / 2).
Proof.
  intros Hb Hp. unfold mic_task_step in Hp.
  destruct (Z.eqb_spec ret ESP_OK), (Z.ltb_spec 0 bytes_read);
    cbn [andb] in Hp; rewrite ?produced_Returned_same in Hp; try done.
  assert (0 <= bytes_read / 2 < 2 ^ 31) as Hhalf
    by (split; [apply Z.div_pos | apply Z.div_lt_upper_bound]; lia).
  rewrite to_int_small in Hp by lia.
  apply QI2Smsg_produced in Hp as (Hc & Hn & ->).
  rewrite Z.quot_div_nonneg in * by lia. done.
Qed.

(** [adc_task] passes [adc_bytes_read], a [uint32_t], as an [int]. *)
Lemma adc_task_step_produced ret adc_bytes_read buf st m :
  0 < SOC_ADC_DIGI_RESULT_BYTES soc -> 0 <= adc_bytes_read < 2 ^ 31 ->
  produced st (adc_task_step soc sample0 now ret adc_bytes_read buf st)
    = Some m ->
  connected st /\ 0 < adc_bytes_read /\
  adc_bytes_read / SOC_ADC_DIGI_RESULT_BYTES soc <= ADC_BUFFER_SIZE /\
  m = QADCmsg_sample soc sample0 now buf
        (adc_bytes_read / SOC_ADC_DIGI_RESULT_BYTES soc).
Proof.
  intros Hrb Hb Hp. unfold adc_task_step in Hp.
  destruct (Z.eqb_spec ret ESP_OK), (Z.ltb_spec 0 adc_bytes_read);
    cbn [andb] in Hp; rewrite ?produced_Returned_same in Hp; try done.
  rewrite to_int_small in Hp by lia.
  apply QADCmsg_produced in Hp as (Hc & Hn & ->).
  rewrite Z.quot_div_nonneg in * by lia. done.
Qed.

End producers.

(** ** The messages the producers build hold Frames *)

Lemma array_get_lookup a i v : a !! i = Some v -> array_get a i = v.
Proof. unfold array_get. by intros ->. Qed.

Lemma array_get_lt a i : (i < length a)%nat -> a !! i = Some (array_get a i).
Proof.
  intros Hi. destruct (lookup_lt_is_Some_2 a i Hi) as [v Hv].
  by rewrite (array_get_lookup _ _ _ Hv).
Qed.

Lemma array_get_int16 a i : Forall is_int16 a -> is_int16 (array_get a i).
Proof.
  intros Ha. unfold array_get. destruct (a !! i) as [v|] eqn:Hv; simpl.
  - by eapply Forall_lookup_1.
  - unfold is_int16. lia.
Qed.

Lemma to_uint64_range z : 0 <= to_uint64 z < 2 ^ 64.
Proof. apply Z.mod_pos_bound. lia. Qed.

Section samples.
Context (soc : soc_adc) (sample0 : msg_t) (now : Z).
Hypothesis sample0_len :
  Z.of_nat (length (data (buffer sample0))) = DATA_CAPACITY.
Hypothesis sample0_int16 : Forall is_int16 (data (buffer sample0)).

Lemma QI2Smsg_sample_ok buf n :
  Forall is_int16 buf -> 0 <= n <= MIC_BUFFER_SIZE ->
  frame_ok (QI2Smsg_sample sample0 now buf n).
Proof.
  intros Hbuf Hn. unfold MIC_BUFFER_SIZE in Hn.
  assert (to_uint16 n = n) as H16 by (apply Z.mod_small; lia).
  assert (to_uint32 n = n) as H32 by (apply Z.mod_small; lia).
  pose proof (to_uint64_range now).
  split; [split|..]; cbn [QI2Smsg_sample header buffer source metadata
    length_ timestamp data end_]; rewrite ?H16, ?H32;
    change (to_uint8 SOURCE_MIC) with 0; change (to_uint8 0) with 0;
    try lia.
  - by rewrite QI2Smsg_loop_fill, length_fill.
  - rewrite QI2Smsg_loop_fill. apply Forall_fill; [|done].
    intros j _. by apply array_get_int16.
  - by left.
  - unfold DATA_CAPACITY, MIC_BUFFER_SIZE, ADC_BUFFER_SIZE. lia.
Qed.

Lemma QADCmsg_sample_ok buf n :
  0 <= n <= ADC_BUFFER_SIZE ->
  frame_ok (QADCmsg_sample soc sample0 now buf n).
Proof.
  intros Hn. unfold ADC_BUFFER_SIZE in Hn.
  assert (to_uint16 n = n) as H16 by (apply Z.mod_small; lia).
  assert (to_uint32 n = n) as H32 by (apply Z.mod_small; lia).
  pose proof (to_uint64_range now).
  split; [split|..]; cbn [QADCmsg_sample header buffer source metadata
    length_ timestamp data end_]; rewrite ?H16, ?H32;
    change (to_uint8 SOURCE_ADC) with 1; change (to_uint8 0) with 0;
    try lia.
  - by rewrite QADCmsg_loop_fill, length_fill.
  - rewrite QADCmsg_loop_fill. apply Forall_fill; [|done].
    intros j _. apply to_int16_range.
  - by right.
  - unfold DATA_CAPACITY, MIC_BUFFER_SIZE, ADC_BUFFER_SIZE. lia.
Qed.

End samples.

(** * The disconnect threshold *)

(** C1 (as the code has it): on a connection on which every write fails,
    starting connected with the counter at 0, the connection is still open
    after each of the first 11 consecutive failures, with the counter equal
    to the number of failures; the 12th failure closes it, once (one
    [close], of the client's descriptor, and [client_socket] becomes -1);
    the counter is not reset by the transition: it holds 12 from then on,
    and no further write is attempted. *)
Theorem send_msg_disconnect_threshold bo net ms st :
  always_fails net -> connected st -> errors st = 0 ->
  let st' := deliver bo net ms st in
  ((length ms <= 11)%nat ->
     client_socket st' = client_socket st /\
     errors st' = Z.of_nat (length ms) /\
     closed (trace st') = closed (trace st) /\
     length (failed_writes (trace st')) =
       (length (failed_writes (trace st)) + length ms)%nat) /\
  ((12 <= length ms)%nat ->
     client_socket st' = -1 /\
     errors st' = 12 /\
     closed (trace st') = closed (trace st) ++ [client_socket st] /\
     length (failed_writes (trace st')) =
       (length (failed_writes (trace st)) + 12)%nat).
Proof.
  intros Hnet Hc He. cbv zeta.
  destruct (deliver_fails bo net ms st Hnet Hc) as [Hlt Hge]; [lia|].
  rewrite He in Hlt, Hge. change (Z.to_nat (12 - 0)) with 12%nat in *.
  split; intros Hlen.
  - destruct Hlt as (? & ? & ? & ?); [lia|]. split_and!; [done | lia | done..].
  - by apply Hge.
Qed.

Lemma send_msg_disconnect_threshold_witness :
  let st' := deliver LittleEndian net_down (replicate 12 sample_blank)
               st_connected in
  client_socket st' = -1 /\ errors st' = 12 /\ closed (trace st') = [3] /\
  length (failed_writes (trace st')) = 12%nat.
Proof.
  apply (send_msg_disconnect_threshold LittleEndian net_down
           (replicate 12 sample_blank) st_connected).
  - intros tr fd bs. unfold net_down. lia.
  - unfold connected. simpl. lia.
  - reflexivity.
  - simpl. lia.
Defined.

(** C1 (as stated) fails: after the 11th consecutive failure the client is
    still connected and the counter holds 11; the 12th failure disconnects
    and leaves the counter at 12, not 0. *)
Lemma eleventh_failure_keeps_connection :
  let run n :=
    deliver LittleEndian net_down (replicate n sample_blank) st_connected in
  client_socket (run 11%nat) = 3 /\ errors (run 11%nat) = 11 /\
  client_socket (run 12%nat) = -1 /\ errors (run 12%nat) = 12.
Proof. by vm_compute. Qed.

(** * Blocks that exceed the capacity *)

(** C2 (as the code has it): when the decoded count exceeds the capacity of
    256 while a client is connected, the [assert] of the producer fails and
    the program aborts: the call does not return, nothing is enqueued and
    the state is as it was. With no client the block is dropped before the
    count is looked at, and the call returns. *)
Theorem capacity_exceeded_aborts soc sample0 now buf size st :
  (MIC_BUFFER_SIZE < Z.quot size 2 ->
     (connected st -> QI2Smsg sample0 now buf size st = Aborted st) /\
     (disconnected st -> QI2Smsg sample0 now buf size st = Returned st)) /\
  (ADC_BUFFER_SIZE < Z.quot size (SOC_ADC_DIGI_RESULT_BYTES soc) ->
     (connected st -> QADCmsg soc sample0 now buf size st = Aborted st) /\
     (disconnected st -> QADCmsg soc sample0 now buf size st = Returned st)).
Proof.
  split; intros Hn; split; intros Hst.
  - by apply QI2Smsg_aborts.
  - by apply QI2Smsg_disconnected.
  - by apply QADCmsg_aborts.
  - by apply QADCmsg_disconnected.
Qed.

Lemma capacity_exceeded_aborts_witness :
  QI2Smsg sample_blank 0 [] 514 st_connected = Aborted st_connected /\
  QADCmsg esp32s3 sample_blank 0 [] 1028 st_connected = Aborted st_connected.
Proof.
  split.
  - apply (capacity_exceeded_aborts esp32s3 sample_blank 0 [] 514
             st_connected); [vm_compute; reflexivity|].
    unfold connected. simpl. lia.
  - apply (capacity_exceeded_aborts esp32s3 sample_blank 0 [] 1028
             st_connected); [vm_compute; reflexivity|].
    unfold connected. simpl. lia.
Defined.

(** C2 (as stated) fails: a read of 1028 bytes makes 257 samples for
    [QI2Smsg] (and 257 records for [QADCmsg]); with a client connected the
    turn of the task does not drop the block and go on, it ends in the
    failed assertion. *)
Lemma oversized_block_stops_the_task :
  mic_task_step sample_blank 0 ESP_OK 1028 [] st_connected
    = Aborted st_connected /\
  adc_task_step esp32s3 sample_blank 0 ESP_OK 1028 [] st_connected
    = Aborted st_connected.
Proof. by vm_compute. Qed.

(** * The Frames the producers build *)

Section frames.
Context (soc : soc_adc) (sample0 : msg_t) (now : Z).
Hypothesis sample0_len :
  Z.of_nat (length (data (buffer sample0))) = DATA_CAPACITY.

(** The Frame held by the message of [QI2Smsg]: every second sample of
    the block, starting with the one at index 1. *)
Lemma QI2Smsg_sample_frame buf n :
  0 <= n <= MIC_BUFFER_SIZE ->
  msg_frame (QI2Smsg_sample sample0 now buf n) =
    Some (mk_Frame Audio 0 n (to_uint64 now)
            ((fun j => array_get buf (2 * j + 1)) <$> seq 0 (Z.to_nat n))).
Proof.
  intros Hn. unfold MIC_BUFFER_SIZE in Hn.
  unfold msg_frame, QI2Smsg_sample. cbn [header buffer source metadata
    length_ timestamp data end_].
  change (source_of_code (to_uint8 SOURCE_MIC)) with (Some Audio).
  change (to_uint8 0) with 0. cbn [mbind option_bind].
  unfold to_uint16, to_uint32. rewrite !Z.mod_small by lia.
  rewrite QI2Smsg_loop_fill, take_fill; [done|].
  unfold DATA_CAPACITY, MIC_BUFFER_SIZE, ADC_BUFFER_SIZE in *. lia.
Qed.

(** The Frame held by the message of [QADCmsg]: one packed sample per
    conversion record. *)
Lemma QADCmsg_sample_frame buf n :
  0 <= n <= ADC_BUFFER_SIZE ->
  msg_frame (QADCmsg_sample soc sample0 now buf n) =
    Some (mk_Frame Adc 0 n (to_uint64 now)
            ((fun i =>
                to_int16 (adc_pack (type2_channel soc (adc_record soc buf i))
                            (type2_data soc (adc_record soc buf i))))
               <$> seq 0 (Z.to_nat n))).
Proof.
  intros Hn. unfold ADC_BUFFER_SIZE in Hn.
  unfold msg_frame, QADCmsg_sample. cbn [header buffer source metadata
    length_ timestamp data end_].
  change (source_of_code (to_uint8 SOURCE_ADC)) with (Some Adc).
  change (to_uint8 0) with 0. cbn [mbind option_bind].
  unfold to_uint16, to_uint32. rewrite !Z.mod_small by lia.
  rewrite QADCmsg_loop_fill, take_fill; [done|].
  unfold DATA_CAPACITY, MIC_BUFFER_SIZE, ADC_BUFFER_SIZE in *. lia.
Qed.

End frames.

(** C3: for a raw block of [size] samples (at most the 512 of the read
    buffer) handled while a client is connected, [QI2Smsg] hands the queue
    a message that holds a Frame with source Audio, sampleCount [size / 2]
    and [payload[j] = raw[2 * j + 1]] for every [j] below [size / 2]; a
    block of 512 samples gives sampleCount 256 and the payload
    [a1, a3, ..., a511]. *)
Theorem QI2Smsg_audio_frame sample0 now buf size st :
  connected st ->
  Z.of_nat (length (data (buffer sample0))) = DATA_CAPACITY ->
  0 <= size <= 2 * MIC_BUFFER_SIZE -> size <= Z.of_nat (length buf) ->
  exists m F,
    QI2Smsg sample0 now buf size st = xQueueSend m st /\
    msg_frame m = Some F /\
    frame_source F = Audio /\
    sampleCount F = size / 2 /\
    Z.of_nat (length (payload F)) = size / 2 /\
    (forall j : nat,
       Z.of_nat j < size / 2 -> payload F !! j = buf !! (2 * j + 1)%nat) /\
    (size = 512 ->
       sampleCount F = 256 /\
       payload F = (fun j => array_get buf (2 * j + 1)) <$> seq 0 256).
Proof.
  intros Hc Hlen Hsize Hbuf. unfold MIC_BUFFER_SIZE in Hsize.
  assert (0 <= size / 2 <= 256) as Hn
    by (split; [apply Z.div_pos | apply Z.div_le_upper_bound]; lia).
  eexists _, _. split_and!.
  - rewrite QI2Smsg_sends, Z.quot_div_nonneg by
      (rewrite ?Z.quot_div_nonneg; unfold MIC_BUFFER_SIZE; done || lia).
    reflexivity.
  - by apply QI2Smsg_sample_frame.
  - done.
  - done.
  - cbn [payload]. rewrite length_fmap, length_seq. lia.
  - intros j Hj. cbn [payload].
    rewrite list_lookup_fmap, lookup_seq_lt by lia. cbn.
    symmetry. apply array_get_lt.
    pose proof (Z.mul_div_le size 2). lia.
  - intros ->. done.
Qed.

Lemma QI2Smsg_audio_frame_witness :
  exists m F,
    QI2Smsg sample_blank 7 raw_ramp 512 st_connected
      = xQueueSend m st_connected /\
    msg_frame m = Some F /\
    frame_source F = Audio /\
    sampleCount F = 256 /\
    payload F !! 0%nat = Some 1 /\
    payload F !! 255%nat = Some 511.
Proof.
  destruct (QI2Smsg_audio_frame sample_blank 7 raw_ramp 512 st_connected)
    as (m & F & Hq & Hf & Hs & Hn & _ & Hp & _).
  - unfold connected. simpl. lia.
  - reflexivity.
  - vm_compute. split; discriminate.
  - vm_compute. discriminate.
  - exists m, F. split_and!; try done.
    + apply (Hp 0%nat). reflexivity.
    + apply (Hp 255%nat). reflexivity.
Defined.

(** C4: for a block of conversion records handled while a client is
    connected (at most the 256 records of the read buffer), [QADCmsg] hands
    the queue a message that holds a Frame with source Adc and sampleCount
    the number of records, whose sample [i] has the sixteen bits
    [(channel & 0xF) << 12 | (data & 0xFFF)] of record [i]; channel 2 with
    data [0xABC] gives the sample [0x2ABC]. *)
Theorem QADCmsg_adc_frame soc sample0 now buf size st :
  connected st ->
  Z.of_nat (length (data (buffer sample0))) = DATA_CAPACITY ->
  0 < SOC_ADC_DIGI_RESULT_BYTES soc ->
  0 <= size <= ADC_BUFFER_SIZE * SOC_ADC_DIGI_RESULT_BYTES soc ->
  let recordCount := size / SOC_ADC_DIGI_RESULT_BYTES soc in
  exists m F,
    QADCmsg soc sample0 now buf size st = xQueueSend m st /\
    msg_frame m = Some F /\
    frame_source F = Adc /\
    sampleCount F = recordCount /\
    Z.of_nat (length (payload F)) = recordCount /\
    (forall i : nat,
       Z.of_nat i < recordCount ->
       let channel := type2_channel soc (adc_record soc buf i) in
       let dat := type2_data soc (adc_record soc buf i) in
       exists v,
         payload F !! i = Some v /\
         to_uint16 v =
           Z.lor (Z.shiftl (Z.land channel 0xF) 12) (Z.land dat 0xFFF) /\
         (channel = 2 -> dat = 0xABC -> v = 0x2ABC)).
Proof.
  intros Hc Hlen Hrb Hsize recordCount. unfold ADC_BUFFER_SIZE in Hsize.
  assert (0 <= recordCount <= 256) as Hn.
  { unfold recordCount.
    split; [apply Z.div_pos | apply Z.div_le_upper_bound]; lia. }
  eexists _, _. split_and!.
  - rewrite QADCmsg_sends, Z.quot_div_nonneg by
      (rewrite ?Z.quot_div_nonneg; unfold ADC_BUFFER_SIZE; done || lia).
    reflexivity.
  - by apply QADCmsg_sample_frame.
  - done.
  - done.
  - cbn [payload]. rewrite length_fmap, length_seq. lia.
  - intros i Hi channel dat. eexists. split_and!.
    + cbn [payload].
      rewrite list_lookup_fmap, lookup_seq_lt by (fold recordCount; lia).
      reflexivity.
    + cbn [Nat.add]. apply to_uint16_adc_sample.
    + cbn [Nat.add]. fold channel dat. by intros -> ->.
Qed.

Lemma QADCmsg_adc_frame_witness :
  exists m F,
    QADCmsg esp32s3 sample_blank 7 adc_one_record 4 st_connected
      = xQueueSend m st_connected /\
    msg_frame m = Some F /\
    frame_source F = Adc /\
    sampleCount F = 1 /\
    payload F !! 0%nat = Some 0x2ABC.
Proof.
  destruct (QADCmsg_adc_frame esp32s3 sample_blank 7 adc_one_record 4
              st_connected)
    as (m & F & Hq & Hf & Hs & Hn & _ & Hp).
  - unfold connected. simpl. lia.
  - reflexivity.
  - simpl. lia.
  - vm_compute. split; discriminate.
  - exists m, F. split_and!; try done.
    destruct (Hp 0%nat) as (v & Hv & _ & H2abc); [reflexivity|].
    rewrite Hv. f_equal. apply H2abc; reflexivity.
Defined.

(** * The gate of the producers *)

(** C5: a block handled while no client is connected is dropped before
    anything is built: the call of the producer returns with the state as
    it was (same queue, nothing handed to [xQueueSend]), whatever the size
    of the block; so does the whole turn of the task. *)
Theorem producers_gate soc sample0 now ret nbytes buf size st :
  disconnected st ->
  QI2Smsg sample0 now buf size st = Returned st /\
  QADCmsg soc sample0 now buf size st = Returned st /\
  mic_task_step sample0 now ret nbytes buf st = Returned st /\
  adc_task_step soc sample0 now ret nbytes buf st = Returned st /\
  produced st (QI2Smsg sample0 now buf size st) = None /\
  produced st (QADCmsg soc sample0 now buf size st) = None.
Proof.
  intros Hd.
  assert (QI2Smsg sample0 now buf size st = Returned st) as Hmic
    by by apply QI2Smsg_disconnected.
  assert (QADCmsg soc sample0 now buf size st = Returned st) as Hadc
    by by apply QADCmsg_disconnected.
  rewrite Hmic, Hadc, produced_Returned_same. split_and!; try done.
  - unfold mic_task_step. destruct (_ && _); [|done].
    by apply QI2Smsg_disconnected.
  - unfold adc_task_step. destruct (_ && _); [|done].
    by apply QADCmsg_disconnected.
Qed.

Lemma producers_gate_witness :
  QI2Smsg sample_blank 7 raw_ramp 512 st_disconnected
    = Returned st_disconnected /\
  QADCmsg esp32s3 sample_blank 7 adc_one_record 4 st_disconnected
    = Returned st_disconnected.
Proof.
  destruct (producers_gate esp32s3 sample_blank 7 ESP_OK 4 raw_ramp 512
              st_disconnected) as (Hmic & _).
  { unfold disconnected. simpl. lia. }
  destruct (producers_gate esp32s3 sample_blank 7 ESP_OK 4 adc_one_record 4
              st_disconnected) as (_ & Hadc & _).
  { unfold disconnected. simpl. lia. }
  by split.
Defined.

(** * The wire format *)

Section wire.
Context (bo : byte_order).

(** The Frame of a well-formed message, field by field. *)
Lemma frame_ok_msg_frame m :
  frame_ok m ->
  exists F,
    msg_frame m = Some F /\
    source_code (frame_source F) = source (header m) /\
    frame_metadata F = 0 /\
    sampleCount F = length_ (header m) /\
    frame_timestamp F = timestamp (header m) /\
    payload F = take (Z.to_nat (length_ (header m))) (data (buffer m)).
Proof.
  intros [Hm Hs Hmd He Hcap]. unfold msg_frame. rewrite He, Hmd.
  destruct Hs as [-> | ->].
  - change (source_of_code SOURCE_MIC) with (Some Audio).
    eexists. split; [reflexivity|]. done.
  - change (source_of_code SOURCE_ADC) with (Some Adc).
    eexists. split; [reflexivity|]. done.
Qed.

Lemma frame_ok_payload_bytes m :
  frame_ok m ->
  payload_bytes bo (buffer m) =
    samples_bytes bo (take (Z.to_nat (length_ (header m))) (data (buffer m))).
Proof.
  intros [Hm Hs Hmd He Hcap]. destruct Hm.
  unfold DATA_CAPACITY, MIC_BUFFER_SIZE, ADC_BUFFER_SIZE in *.
  rewrite <- He. apply payload_bytes_samples; lia.
Qed.

Lemma frame_ok_payload_length m :
  frame_ok m ->
  length (take (Z.to_nat (length_ (header m))) (data (buffer m))) =
    Z.to_nat (length_ (header m)).
Proof.
  intros [Hm Hs Hmd He Hcap]. destruct Hm. rewrite length_take. lia.
Qed.

Context (net : network).

(** With a client and a header write that does not fail, [send_msg]
    passes two buffers to [send]: the header object, then the first
    [end * 2] bytes of the buffer object. *)
Lemma send_msg_writes m st :
  connected st ->
  0 <= to_int (net (trace st) (client_socket st)
                 (header_bytes bo (header m))) ->
  writes (trace (send_msg bo net m st)) =
    writes (trace st) ++
      [header_bytes bo (header m); payload_bytes bo (buffer m)].
Proof.
  unfold connected, send_msg. intros Hc Hr. decide_ltb.
  rewrite take_header_bytes. unfold send. cbv beta iota zeta. decide_ltb.
  destruct (_ <? 0); unfold write_failed;
    [destruct (10 <? _)|];
    cbn [emit set_errors set_client_socket trace client_socket errors
         outbound_queue];
    unfold writes; rewrite !omap_app; cbn [omap list_omap];
    rewrite ?app_nil_r, <- ?app_assoc; done.
Qed.

(** A header write that fails is the only write of the call. *)
Lemma send_msg_writes_header_fails m st :
  connected st ->
  to_int (net (trace st) (client_socket st)
            (header_bytes bo (header m))) < 0 ->
  writes (trace (send_msg bo net m st)) =
    writes (trace st) ++ [header_bytes bo (header m)].
Proof.
  unfold connected, send_msg. intros Hc Hr. decide_ltb.
  rewrite take_header_bytes. unfold send. cbv beta iota zeta. decide_ltb.
  unfold write_failed. destruct (10 <? _);
    cbn [emit set_errors set_client_socket trace client_socket errors
         outbound_queue];
    unfold writes; rewrite !omap_app; cbn [omap list_omap];
    rewrite ?app_nil_r, <- ?app_assoc; done.
Qed.

End wire.

(** C6: for a message that holds a Frame, delivered to a connected client
    whose header write does not fail, [send_msg] makes exactly two writes,
    in this order: the header, 12 bytes laid out as source (1 byte, 0 for
    Audio and 1 for Adc), metadata (1 byte, 0), sampleCount (2 bytes),
    timestamp (8 bytes); then the payload, the [sampleCount] samples of two
    bytes each, [sampleCount * 2] bytes and nothing after them. *)
Theorem send_msg_wire_format bo net m st :
  connected st -> frame_ok m ->
  0 <= to_int (net (trace st) (client_socket st)
                 (header_bytes bo (header m))) ->
  exists F hdr pl,
    msg_frame m = Some F /\
    writes (trace (send_msg bo net m st)) = writes (trace st) ++ [hdr; pl] /\
    hdr = [source_code (frame_source F); 0] ++
          to_bytes bo 2 (sampleCount F) ++ to_bytes bo 8 (frame_timestamp F) /\
    frame_metadata F = 0 /\
    Z.of_nat (length hdr) = 12 /\
    pl = samples_bytes bo (payload F) /\
    Z.of_nat (length pl) = sampleCount F * 2.
Proof.
  intros Hc Hm Hr.
  destruct (frame_ok_msg_frame m Hm) as (F & HF & Hsrc & Hmd & Hn & Hts & Hp).
  exists F, (header_bytes bo (header m)), (payload_bytes bo (buffer m)).
  split_and!; try done.
  - by apply send_msg_writes.
  - unfold header_bytes. rewrite !to_bytes_1, Hsrc, Hn, Hts.
    destruct Hm as [_ Hs Hmd0 _ _]. rewrite Hmd0.
    by destruct Hs as [-> | ->].
  - apply length_header_bytes.
  - by rewrite frame_ok_payload_bytes, Hp.
  - rewrite frame_ok_payload_bytes, length_samples_bytes,
      frame_ok_payload_length, Hn by done.
    destruct Hm as [[] _ _ _ _]. lia.
Qed.

Lemma msg_small_ok : frame_ok msg_small.
Proof.
  split; [split|..]; cbn; try lia; try done.
  apply (bool_decide_unpack _). by vm_compute.
Defined.

Lemma send_msg_wire_format_witness :
  exists F hdr pl,
    msg_frame msg_small = Some F /\
    writes (trace (send_msg LittleEndian net_up msg_small st_connected))
      = writes (trace st_connected) ++ [hdr; pl] /\
    hdr = [source_code (frame_source F); 0] ++
          to_bytes LittleEndian 2 (sampleCount F) ++
          to_bytes LittleEndian 8 (frame_timestamp F) /\
    frame_metadata F = 0 /\
    Z.of_nat (length hdr) = 12 /\
    pl = samples_bytes LittleEndian (payload F) /\
    Z.of_nat (length pl) = sampleCount F * 2.
Proof.
  apply (send_msg_wire_format LittleEndian net_up msg_small st_connected).
  - unfold connected. simpl. lia.
  - exact msg_small_ok.
  - vm_compute. discriminate.
Defined.

(** * Decoding what was sent *)

(** The decoder reads back the header object followed by the first
    [end * 2] bytes of the buffer object of a message that holds a Frame. *)
Lemma decode_frame_wire_format bo m F rest :
  frame_ok m -> msg_frame m = Some F ->
  decode_frame bo (wire_format bo m ++ rest) = Some (F, rest).
Proof.
  intros Hm HF.
  destruct (frame_ok_msg_frame m Hm)
    as (F' & HF' & Hsrc & Hmd & Hn & Hts & Hp).
  assert (F' = F) as -> by congruence.
  unfold wire_format. rewrite take_header_bytes, frame_ok_payload_bytes by done.
  pose proof (frame_ok_payload_length m Hm) as Hlen.
  destruct Hm as [[Hs8 Hmd8 Hn16 Hts64 Hdl Hd16 He32] Hs Hmd0 He Hcap].
  unfold header_bytes. rewrite !to_bytes_1.
  pose proof (of_bytes_to_bytes bo 2 (length_ (header m))) as Hof2.
  pose proof (of_bytes_to_bytes bo 8 (timestamp (header m))) as Hof8.
  destruct (to_bytes_2 bo (length_ (header m))) as (l0 & l1 & Hl).
  destruct (to_bytes_8 bo (timestamp (header m)))
    as (t0 & t1 & t2 & t3 & t4 & t5 & t6 & t7 & Ht).
  rewrite Hl in *. rewrite Ht in *. cbn [app decode_frame].
  rewrite Hof2, Hof8 by lia.
  change (2 ^ (2 * 8)) with (2 ^ 16). change (2 ^ (8 * 8)) with (2 ^ 64).
  rewrite !Z.mod_small by lia.
  unfold to_uint8. rewrite !Z.mod_small by lia.
  assert (source_of_code (source (header m)) = Some (frame_source F)) as ->.
  { rewrite <- Hsrc. by destruct (frame_source F). }
  cbn [mbind option_bind]. rewrite <- Hlen at 1.
  rewrite decode_samples_bytes by by apply Forall_take.
  cbn [mbind option_bind]. rewrite <- Hp, <- Hn, <- Hts.
  replace (metadata (header m)) with (frame_metadata F) by congruence.
  by destruct F.
Qed.

(** C7: for every message that holds a Frame [F], given to [send_msg]
    while a client is connected and the header write does not fail: the
    call makes two writes, and decoding the bytes of the first followed by
    the bytes of the second (the 12 bytes of the header, then the payload)
    gives back [F] (source, metadata, sampleCount, timestamp and payload)
    and leaves the bytes that follow untouched. *)
Theorem decode_wire_format bo net m F rest st :
  connected st -> frame_ok m -> msg_frame m = Some F ->
  0 <= to_int (net (trace st) (client_socket st)
                 (header_bytes bo (header m))) ->
  exists hdr pl,
    writes (trace (send_msg bo net m st)) = writes (trace st) ++ [hdr; pl] /\
    decode_frame bo (hdr ++ pl ++ rest) = Some (F, rest).
Proof.
  intros Hc Hm HF Hr.
  exists (header_bytes bo (header m)), (payload_bytes bo (buffer m)).
  split; [by apply send_msg_writes|].
  rewrite <- (decode_frame_wire_format bo m F rest Hm HF).
  unfold wire_format. by rewrite take_header_bytes, <- app_assoc.
Qed.

Lemma decode_wire_format_witness :
  exists hdr pl,
    writes (trace (send_msg BigEndian net_up msg_small st_connected))
      = writes (trace st_connected) ++ [hdr; pl] /\
    decode_frame BigEndian (hdr ++ pl ++ [1; 2; 3]) =
      Some (mk_Frame Audio 0 2 1000 [11; -13], [1; 2; 3]).
Proof.
  apply (decode_wire_format BigEndian net_up msg_small
           (mk_Frame Audio 0 2 1000 [11; -13]) [1; 2; 3] st_connected).
  - unfold connected. simpl. lia.
  - exact msg_small_ok.
  - reflexivity.
  - vm_compute. discriminate.
Defined.

(** * Bounds on what the producers enqueue *)

(** C8: given that a hardware read returns at most the size of the buffer
    it was given, every message a turn of [mic_task] hands to the queue
    holds a Frame with source Audio and sampleCount in [0, 256], and every
    message a turn of [adc_task] hands to the queue holds a Frame with
    source Adc and sampleCount in [0, 256]. *)
Theorem producers_frame_bounds soc sample0 now ret nbytes buf st m :
  Z.of_nat (length (data (buffer sample0))) = DATA_CAPACITY ->
  0 < SOC_ADC_DIGI_RESULT_BYTES soc -> sizeof_adc_dma_buf soc < 2 ^ 31 ->
  0 <= nbytes ->
  (nbytes <= sizeof_i2s_read_buf ->
   produced st (mic_task_step sample0 now ret nbytes buf st) = Some m ->
   exists F,
     msg_frame m = Some F /\ frame_source F = Audio /\
     0 <= sampleCount F <= 256) /\
  (nbytes <= sizeof_adc_dma_buf soc ->
   produced st (adc_task_step soc sample0 now ret nbytes buf st) = Some m ->
   exists F,
     msg_frame m = Some F /\ frame_source F = Adc /\
     0 <= sampleCount F <= 256).
Proof.
  intros Hlen Hrb Hbuf Hn. split; intros Hread Hp.
  - apply mic_task_step_produced in Hp as (_ & Hpos & Hcap & ->);
      [|unfold sizeof_i2s_read_buf, MIC_BUFFER_SIZE in Hread; lia].
    assert (0 <= nbytes / 2 / 2) by (apply Z.div_pos; [apply Z.div_pos|]; lia).
    eexists. split; [by apply QI2Smsg_sample_frame|].
    cbn [frame_source sampleCount]. unfold MIC_BUFFER_SIZE in Hcap. done.
  - apply adc_task_step_produced in Hp as (_ & Hpos & Hcap & ->);
      [|done|lia].
    assert (0 <= nbytes / SOC_ADC_DIGI_RESULT_BYTES soc)
      by (apply Z.div_pos; lia).
    eexists. split; [by apply QADCmsg_sample_frame|].
    cbn [frame_source sampleCount]. unfold ADC_BUFFER_SIZE in Hcap. done.
Qed.

Lemma producers_frame_bounds_witness :
  (exists F,
     msg_frame (QI2Smsg_sample sample_blank 7 raw_ramp 256) = Some F /\
     frame_source F = Audio /\ 0 <= sampleCount F <= 256) /\
  (exists F,
     msg_frame (QADCmsg_sample esp32s3 sample_blank 7 adc_one_record 1)
       = Some F /\
     frame_source F = Adc /\ 0 <= sampleCount F <= 256).
Proof.
  split.
  - destruct (producers_frame_bounds esp32s3 sample_blank 7 ESP_OK 1024
                raw_ramp st_connected
                (QI2Smsg_sample sample_blank 7 raw_ramp 256))
      as [Hmic _].
    + reflexivity.
    + simpl. lia.
    + vm_compute. reflexivity.
    + lia.
    + apply Hmic; [vm_compute; discriminate | vm_compute; reflexivity].
  - destruct (producers_frame_bounds esp32s3 sample_blank 7 ESP_OK 4
                adc_one_record st_connected
                (QADCmsg_sample esp32s3 sample_blank 7 adc_one_record 1))
      as [_ Hadc].
    + reflexivity.
    + simpl. lia.
    + vm_compute. reflexivity.
    + lia.
    + apply Hadc; [vm_compute; discriminate | vm_compute; reflexivity].
Defined.

(** * The header announces the payload that is sent *)

Lemma payload_bytes_length bo b :
  0 <= end_ b <= Z.of_nat (length (data b)) -> end_ b * 2 < 2 ^ 32 ->
  Z.of_nat (length (payload_bytes bo b)) = end_ b * 2.
Proof.
  intros He Hsz.
  rewrite payload_bytes_samples, length_samples_bytes, length_take by done.
  lia.
Qed.

(** C9: in every message a turn of [mic_task] or of [adc_task] hands to
    the queue, [header.length] equals [buffer.end], and the payload write
    of [send_msg] for that message has [header.length * 2] bytes: the
    count announced in the header is the count of samples sent. The byte
    counts of the reads are values of their C types; the one of the ADC,
    passed on as an [int], stays below [2 ^ 31] (it is at most the size of
    the read buffer). *)
Theorem header_length_matches_payload bo soc sample0 now ret nbytes buf st m :
  Z.of_nat (length (data (buffer sample0))) = DATA_CAPACITY ->
  0 < SOC_ADC_DIGI_RESULT_BYTES soc ->
  (0 <= nbytes < 2 ^ 32 ->
   produced st (mic_task_step sample0 now ret nbytes buf st) = Some m ->
   length_ (header m) = end_ (buffer m) /\
   Z.of_nat (length (payload_bytes bo (buffer m))) = length_ (header m) * 2) /\
  (0 <= nbytes < 2 ^ 31 ->
   produced st (adc_task_step soc sample0 now ret nbytes buf st) = Some m ->
   length_ (header m) = end_ (buffer m) /\
   Z.of_nat (length (payload_bytes bo (buffer m))) = length_ (header m) * 2).
Proof.
  intros Hlen Hrb.
  unfold DATA_CAPACITY, MIC_BUFFER_SIZE, ADC_BUFFER_SIZE in Hlen.
  split; intros Hn Hp.
  - apply mic_task_step_produced in Hp as (_ & Hpos & Hcap & ->); [|done].
    assert (0 <= nbytes / 2 / 2) by (apply Z.div_pos; [apply Z.div_pos|]; lia).
    unfold MIC_BUFFER_SIZE in Hcap. set (n := nbytes / 2 / 2) in *.
    assert (to_uint16 n = n) as H16 by (apply Z.mod_small; lia).
    assert (to_uint32 n = n) as H32 by (apply Z.mod_small; lia).
    cbn [QI2Smsg_sample header buffer length_ end_]. rewrite H16, H32.
    split; [done|].
    rewrite payload_bytes_length; cbn [end_ data];
      rewrite ?H32, ?QI2Smsg_loop_fill, ?length_fill; lia.
  - apply adc_task_step_produced in Hp as (_ & Hpos & Hcap & ->);
      [|done..].
    assert (0 <= nbytes / SOC_ADC_DIGI_RESULT_BYTES soc)
      by (apply Z.div_pos; lia).
    unfold ADC_BUFFER_SIZE in Hcap.
    set (n := nbytes / SOC_ADC_DIGI_RESULT_BYTES soc) in *.
    assert (to_uint16 n = n) as H16 by (apply Z.mod_small; lia).
    assert (to_uint32 n = n) as H32 by (apply Z.mod_small; lia).
    cbn [QADCmsg_sample header buffer length_ end_]. rewrite H16, H32.
    split; [done|].
    rewrite payload_bytes_length; cbn [end_ data];
      rewrite ?H32, ?QADCmsg_loop_fill, ?length_fill; lia.
Qed.

Lemma header_length_matches_payload_witness :
  let m := QI2Smsg_sample sample_blank 7 raw_ramp 256 in
  length_ (header m) = end_ (buffer m) /\
  Z.of_nat (length (payload_bytes LittleEndian (buffer m)))
    = length_ (header m) * 2.
Proof.
  destruct (header_length_matches_payload LittleEndian esp32s3 sample_blank
              7 ESP_OK 1024 raw_ramp st_connected
              (QI2Smsg_sample sample_blank 7 raw_ramp 256))
    as [Hmic _].
  - reflexivity.
  - simpl. lia.
  - apply Hmic; [lia | vm_compute; reflexivity].
Defined.

(** * Delivery with no client *)

(** C10: when [send_msg] is given a message while no client is connected
    it returns at once with the state as it was: no write is attempted
    (neither header nor payload), the failure counter and [client_socket]
    are unchanged. A turn of [OutBoundTask] in that situation only takes
    the message out of the queue. *)
Theorem send_msg_no_client bo net m q st :
  disconnected st ->
  send_msg bo net m st = st /\
  (outbound_queue st = m :: q ->
   exists st',
     OutBoundTask_step bo net st = Some st' /\
     outbound_queue st' = q /\
     trace st' = trace st /\
     writes (trace st') = writes (trace st) /\
     errors st' = errors st /\
     client_socket st' = client_socket st).
Proof.
  intros Hd. split; [by apply send_msg_disconnected|].
  intros Hq. unfold OutBoundTask_step. rewrite Hq.
  rewrite send_msg_disconnected by done.
  eexists. split; [reflexivity|]. done.
Qed.

Lemma send_msg_no_client_witness :
  let st := set_outbound_queue [msg_small] st_disconnected in
  send_msg LittleEndian net_up msg_small st = st /\
  (outbound_queue st = [msg_small] ->
   exists st',
     OutBoundTask_step LittleEndian net_up st = Some st' /\
     outbound_queue st' = [] /\
     trace st' = trace st /\
     writes (trace st') = writes (trace st) /\
     errors st' = errors st /\
     client_socket st' = client_socket st).
Proof.
  apply (send_msg_no_client LittleEndian net_up msg_small []
           (set_outbound_queue [msg_small] st_disconnected)).
  unfold disconnected. simpl. lia.
Defined.

(** * The queue holds Frames at all times *)

Section queue.
Context (bo : byte_order) (net : network) (soc : soc_adc).
Hypothesis result_bytes_pos : 0 < SOC_ADC_DIGI_RESULT_BYTES soc.

Lemma send_msg_outbound_queue m st :
  outbound_queue (send_msg bo net m st) = outbound_queue st.
Proof.
  unfold send_msg, send, write_failed.
  repeat match goal with
         | |- context [if ?b then _ else _] => destruct b
         end; done.
Qed.

Lemma xQueueSend_Returned m st st' :
  xQueueSend m st = Returned st' ->
  Z.of_nat (length (outbound_queue st)) < QUEUE_LENGTH /\
  st' = set_outbound_queue (outbound_queue st ++ [m]) st.
Proof.
  unfold xQueueSend.
  destruct (Z.ltb_spec (Z.of_nat (length (outbound_queue st))) QUEUE_LENGTH);
    [|done].
  intros [= <-]. done.
Qed.

Lemma queue_ok_xQueueSend m st st' :
  queue_ok st -> frame_ok m -> xQueueSend m st = Returned st' -> queue_ok st'.
Proof.
  intros [Hlen Hq] Hm Hs. apply xQueueSend_Returned in Hs as [Hroom ->].
  split; cbn [set_outbound_queue outbound_queue].
  - rewrite length_app. cbn [length]. lia.
  - apply Forall_app. split; [done|]. by apply Forall_singleton.
Qed.

Lemma queue_ok_QI2Smsg sample0 now buf size st st' :
  queue_ok st -> msg_t_ok sample0 -> Forall is_int16 buf -> 0 <= size ->
  QI2Smsg sample0 now buf size st = Returned st' -> queue_ok st'.
Proof.
  intros Hq [_ _ _ _ Hlen Hd _] Hbuf Hsize Hr.
  destruct (decide (client_socket st < 0)) as [Hdis|Hcon].
  { rewrite QI2Smsg_disconnected in Hr by done. by injection Hr as <-. }
  destruct (decide (Z.quot size 2 <= MIC_BUFFER_SIZE)) as [Hn|Hn].
  - rewrite QI2Smsg_sends in Hr by (unfold connected; lia || done).
    eapply queue_ok_xQueueSend; [done| |done].
    apply QI2Smsg_sample_ok; try done.
    split; [|done]. apply Z.quot_pos; lia.
  - rewrite QI2Smsg_aborts in Hr by (unfold connected; lia). done.
Qed.

Lemma queue_ok_QADCmsg sample0 now buf size st st' :
  queue_ok st -> msg_t_ok sample0 -> 0 <= size ->
  QADCmsg soc sample0 now buf size st = Returned st' -> queue_ok st'.
Proof.
  intros Hq [_ _ _ _ Hlen Hd _] Hsize Hr.
  destruct (decide (client_socket st < 0)) as [Hdis|Hcon].
  { rewrite QADCmsg_disconnected in Hr by done. by injection Hr as <-. }
  destruct (decide (Z.quot size (SOC_ADC_DIGI_RESULT_BYTES soc)
                      <= ADC_BUFFER_SIZE)) as [Hn|Hn].
  - rewrite QADCmsg_sends in Hr by (unfold connected; lia || done).
    eapply queue_ok_xQueueSend; [done| |done].
    apply QADCmsg_sample_ok; try done.
    split; [|done]. apply Z.quot_pos; lia.
  - rewrite QADCmsg_aborts in Hr by (unfold connected; lia). done.
Qed.

(** Every action keeps the queue as it should be. *)
Lemma queue_ok_action st st' :
  queue_ok st -> action bo net soc st st' -> queue_ok st'.
Proof.
  intros Hq Hact.
  destruct Hact as [fd Hd | sample0 now ret n buf st' H0 Hbuf Hn Hr
                   | sample0 now ret n buf st' H0 Hn Hr | st' Hr].
  - done.
  - unfold mic_task_step in Hr. destruct (_ && _).
    + eapply queue_ok_QI2Smsg; [done..| |done].
      assert (0 <= n / 2 < 2 ^ 31) as Hhalf
        by (split; [apply Z.div_pos | apply Z.div_lt_upper_bound]; lia).
      rewrite to_int_small; lia.
    + by injection Hr as <-.
  - unfold adc_task_step in Hr. destruct (_ && _).
    + eapply queue_ok_QADCmsg; [done..| |done].
      rewrite to_int_small; lia.
    + by injection Hr as <-.
  - unfold OutBoundTask_step in Hr.
    destruct (outbound_queue st) as [|m q] eqn:Hqueue; [done|].
    injection Hr as <-. destruct Hq as [Hlen Hall].
    rewrite Hqueue in Hlen, Hall. apply Forall_cons in Hall as [_ Hall].
    split; rewrite send_msg_outbound_queue;
      cbn [set_outbound_queue outbound_queue length] in *; [lia | done].
Qed.

(** In every state the program reaches, the queue is within its length
    and holds only messages that hold Frames. *)
Lemma reachable_queue_ok st : reachable bo net soc st -> queue_ok st.
Proof.
  unfold reachable. revert st. apply rtc_ind_r.
  - split; [by vm_compute | constructor].
  - intros st st' _ Hact IH. by eapply queue_ok_action.
Qed.

(** So what [OutBoundTask] gives to [send_msg] always holds a Frame. *)
Lemma delivered_frame_ok st m q :
  reachable bo net soc st -> outbound_queue st = m :: q -> frame_ok m.
Proof.
  intros Hr Hq. destruct (reachable_queue_ok st Hr) as [_ Hall].
  rewrite Hq in Hall. by apply Forall_cons in Hall as [? _].
Qed.

(** With no client, no action adds to the queue: the producers drop
    their blocks, and delivery only takes messages out. *)
Lemma action_disconnected_no_enqueue st st' :
  disconnected st -> action bo net soc st st' ->
  (length (outbound_queue st') <= length (outbound_queue st))%nat.
Proof.
  intros Hd Hact.
  destruct Hact as [fd _ | sample0 now ret n buf st' _ _ _ Hr
                   | sample0 now ret n buf st' _ _ Hr | st' Hr].
  - done.
  - unfold mic_task_step in Hr. destruct (_ && _).
    + rewrite QI2Smsg_disconnected in Hr by done. by injection Hr as <-.
    + by injection Hr as <-.
  - unfold adc_task_step in Hr. destruct (_ && _).
    + rewrite QADCmsg_disconnected in Hr by done. by injection Hr as <-.
    + by injection Hr as <-.
  - unfold OutBoundTask_step in Hr.
    destruct (outbound_queue st) as [|m q] eqn:Hqueue; [done|].
    injection Hr as <-. rewrite send_msg_outbound_queue.
    cbn [set_outbound_queue outbound_queue length]. lia.
Qed.

End queue.

(** * More on delivery *)

Section more_delivery.
Context (bo : byte_order) (net : network).

(** [send_msg] with a client, branch by branch. *)
Lemma send_msg_connected m st :
  connected st ->
  send_msg bo net m st =
    let st1 :=
      emit (Send (client_socket st) (header_bytes bo (header m))
              (header_ret bo net m st)) st in
    if header_ret bo net m st <? 0 then write_failed ErrorSendingHeader st1 else
    let st2 :=
      emit (Send (client_socket st) (payload_bytes bo (buffer m))
              (payload_ret bo net m st)) st1 in
    if payload_ret bo net m st <? 0 then write_failed ErrorSendingData st2 else
    set_errors 0 st2.
Proof.
  unfold connected, send_msg. intros Hc. decide_ltb.
  rewrite take_header_bytes. reflexivity.
Qed.

(** What one call of [send_msg] does to the connection, whatever the
    network does: it leaves the queue alone; it either keeps the client
    and closes nothing, or closes the client's descriptor, once, and sets
    [client_socket] to -1; it offers at most two buffers, the header
    first. *)
Lemma send_msg_cases m st :
  let st' := send_msg bo net m st in
  outbound_queue st' = outbound_queue st /\
  ((client_socket st' = client_socket st /\
    closed (trace st') = closed (trace st)) \/
   (0 <= client_socket st /\ client_socket st' = -1 /\
    closed (trace st') = closed (trace st) ++ [client_socket st])) /\
  (writes (trace st') = writes (trace st) \/
   writes (trace st') =
     writes (trace st) ++ [header_bytes bo (header m)] \/
   writes (trace st') = writes (trace st) ++ msg_writes bo m).
Proof.
  cbv zeta. destruct (decide (client_socket st < 0)) as [Hd|Hc].
  { rewrite send_msg_disconnected by done. auto. }
  rewrite send_msg_connected by (unfold connected; lia). cbv zeta.
  unfold write_failed, msg_writes.
  repeat match goal with
         | |- context [if ?b then _ else _] => destruct b
         end;
    cbn [emit set_errors set_client_socket trace client_socket errors
         outbound_queue];
    unfold closed, writes; rewrite !omap_app; cbn [omap list_omap];
    rewrite ?app_nil_r, <- ?app_assoc; cbn [app];
    (split; [done|]); (split; [|by auto]);
    first [ by left | right; split_and!; [lia | done | done] ].
Qed.

(** One call from a connected state whose counter is at most 11: either
    the client is kept and the counter is still at most 11, or this call
    is the one that disconnects, and the counter is 12. *)
Lemma send_msg_counter_step m st :
  connected st -> 0 <= errors st <= 11 ->
  let st' := send_msg bo net m st in
  (client_socket st' = client_socket st /\ 0 <= errors st' <= 11 /\
   closed (trace st') = closed (trace st)) \/
  (client_socket st' = -1 /\ errors st' = 12 /\
   closed (trace st') = closed (trace st) ++ [client_socket st]).
Proof.
  intros Hc He. cbv zeta. rewrite send_msg_connected by done. cbv zeta.
  unfold write_failed.
  cbn [emit set_errors set_client_socket trace client_socket errors
       outbound_queue].
  destruct (Z.ltb_spec 10 (errors st));
  repeat match goal with
         | |- context [if ?b then _ else _] => destruct b
         end;
    cbn [emit set_errors set_client_socket trace client_socket errors
         outbound_queue];
    rewrite ?to_int_small by lia;
    unfold closed; rewrite !omap_app; cbn [omap list_omap];
    rewrite ?app_nil_r;
    first [ left; split_and!; [done | lia | lia | done]
          | right; split_and!; [done | lia | done] ].
Qed.

End more_delivery.

(** X1: when neither write of [send_msg] fails, the consecutive-failure
    counter is reset to 0, the client is kept, the queue is untouched and
    the history grows by exactly the two writes, header first. A write
    counts as not failed as soon as [send] returns a value that is not
    negative, also when it took fewer bytes than offered. *)
Theorem send_msg_success_resets_counter bo net m st :
  connected st ->
  0 <= header_ret bo net m st -> 0 <= payload_ret bo net m st ->
  let st' := send_msg bo net m st in
  errors st' = 0 /\
  client_socket st' = client_socket st /\
  outbound_queue st' = outbound_queue st /\
  trace st' =
    trace st ++
      [Send (client_socket st) (header_bytes bo (header m))
         (header_ret bo net m st);
       Send (client_socket st) (payload_bytes bo (buffer m))
         (payload_ret bo net m st)].
Proof.
  intros Hc H1 H2. cbv zeta. rewrite send_msg_connected by done. cbv zeta.
  do 2 decide_ltb.
  cbn [emit set_errors trace client_socket errors outbound_queue].
  by rewrite <- app_assoc.
Qed.

Lemma send_msg_success_resets_counter_witness :
  let st' := send_msg LittleEndian (fun _ _ _ => 0) msg_small
               (mk_state 3 7 [] []) in
  errors st' = 0 /\ client_socket st' = 3 /\ length (trace st') = 2%nat.
Proof.
  destruct (send_msg_success_resets_counter LittleEndian (fun _ _ _ => 0)
              msg_small (mk_state 3 7 [] [])) as (He & Hs & _ & Ht).
  - unfold connected. simpl. lia.
  - vm_compute. discriminate.
  - vm_compute. discriminate.
  - cbv zeta. rewrite He, Hs, Ht. split_and!; reflexivity.
Defined.

(** X2: a call of [send_msg] in which a write fails adds exactly one to
    the counter, whichever of the two writes it was (after a failed header
    write the payload is not offered); it closes the client and sets
    [client_socket] to -1 exactly when the counter was above 10 before the
    call. *)
Theorem send_msg_failure_counts_once bo net m st :
  connected st -> 0 <= errors st < 2 ^ 31 - 1 ->
  header_ret bo net m st < 0 \/ payload_ret bo net m st < 0 ->
  let st' := send_msg bo net m st in
  errors st' = errors st + 1 /\
  client_socket st' = (if 10 <? errors st then -1 else client_socket st) /\
  closed (trace st') =
    closed (trace st) ++ (if 10 <? errors st then [client_socket st] else []) /\
  writes (trace st') =
    writes (trace st) ++
      (if header_ret bo net m st <? 0
       then [header_bytes bo (header m)] else msg_writes bo m).
Proof.
  intros Hc He Hfail. cbv zeta. rewrite send_msg_connected by done.
  cbv zeta. unfold write_failed, msg_writes.
  cbn [emit set_errors set_client_socket trace client_socket errors
       outbound_queue].
  destruct (Z.ltb_spec (header_ret bo net m st) 0) as [H1|H1];
    [|destruct (Z.ltb_spec (payload_ret bo net m st) 0) as [H2|H2]; [|lia]];
    destruct (10 <? errors st);
    cbn [emit set_errors set_client_socket trace client_socket errors
         outbound_queue];
    rewrite to_int_small by lia;
    unfold closed, writes; rewrite !omap_app; cbn [omap list_omap];
    rewrite ?app_nil_r, <- ?app_assoc; done.
Qed.

Lemma send_msg_failure_counts_once_witness :
  let st' := send_msg LittleEndian net_down msg_small (mk_state 3 11 [] []) in
  errors st' = 12 /\ client_socket st' = -1 /\ closed (trace st') = [3] /\
  writes (trace st') = [header_bytes LittleEndian (header msg_small)].
Proof.
  apply (send_msg_failure_counts_once LittleEndian net_down msg_small
           (mk_state 3 11 [] [])).
  - unfold connected. simpl. lia.
  - simpl. lia.
  - left. vm_compute. reflexivity.
Defined.

(** X3: a turn of [OutBoundTask] takes the oldest message out of the
    queue and leaves the others in place whatever the network does (a
    message whose write fails is not put back and not sent again); it
    offers the network nothing, or the header only, or the header and then
    the payload; and it either keeps the client, closing nothing, or
    closes the client's descriptor once and sets [client_socket] to -1. *)
Theorem OutBoundTask_step_drops_message bo net m q st :
  outbound_queue st = m :: q ->
  exists st',
    OutBoundTask_step bo net st = Some st' /\
    outbound_queue st' = q /\
    ((client_socket st' = client_socket st /\
      closed (trace st') = closed (trace st)) \/
     (0 <= client_socket st /\ client_socket st' = -1 /\
      closed (trace st') = closed (trace st) ++ [client_socket st])) /\
    (writes (trace st') = writes (trace st) \/
     writes (trace st') =
       writes (trace st) ++ [header_bytes bo (header m)] \/
     writes (trace st') = writes (trace st) ++ msg_writes bo m).
Proof.
  intros Hq. unfold OutBoundTask_step. rewrite Hq.
  eexists. split; [reflexivity|].
  destruct (send_msg_cases bo net m (set_outbound_queue q st))
    as (Hqueue & Hsock & Hw).
  cbn [set_outbound_queue outbound_queue client_socket trace] in *. done.
Qed.

Lemma OutBoundTask_step_drops_message_witness :
  exists st',
    OutBoundTask_step LittleEndian net_down
      (mk_state 3 11 [msg_small; msg_small] []) = Some st' /\
    outbound_queue st' = [msg_small] /\
    client_socket st' = -1.
Proof.
  destruct (OutBoundTask_step_drops_message LittleEndian net_down msg_small
              [msg_small] (mk_state 3 11 [msg_small; msg_small] []))
    as (st' & Hs & Hq & _ & _).
  - reflexivity.
  - exists st'. split_and!; [done | done |].
    vm_compute in Hs. injection Hs as <-. reflexivity.
Defined.

(** X4: whatever the network does, over any sequence of messages given to
    [send_msg] from a connected state whose counter is at most 11: either
    the client is still connected, nothing was closed and the counter is
    still at most 11; or the client was disconnected, by exactly one
    [close] of its descriptor, and the counter stands at 12. *)
Theorem deliver_counter_invariant bo net ms st :
  connected st -> 0 <= errors st <= 11 ->
  let st' := deliver bo net ms st in
  (client_socket st' = client_socket st /\ 0 <= errors st' <= 11 /\
   closed (trace st') = closed (trace st)) \/
  (client_socket st' = -1 /\ errors st' = 12 /\
   closed (trace st') = closed (trace st) ++ [client_socket st]).
Proof.
  revert st. induction ms as [|m ms IH]; intros st Hc He; cbv zeta.
  - left. done.
  - change (deliver bo net (m :: ms) st)
      with (deliver bo net ms (send_msg bo net m st)).
    destruct (send_msg_counter_step bo net m st Hc He)
      as [(Hs & He' & Hcl) | (Hs & He' & Hcl)].
    + destruct (IH (send_msg bo net m st)) as [IH'|IH'];
        [unfold connected in *; lia | done | |];
        rewrite Hs, Hcl in IH'; auto.
    + rewrite deliver_disconnected by (unfold disconnected; lia). auto.
Qed.

Lemma deliver_counter_invariant_witness :
  let st' := deliver BigEndian net_up (replicate 3 msg_small)
               (mk_state 3 11 [] []) in
  (client_socket st' = 3 /\ 0 <= errors st' <= 11 /\
   closed (trace st') = []) \/
  (client_socket st' = -1 /\ errors st' = 12 /\ closed (trace st') = [3]).
Proof.
  apply (deliver_counter_invariant BigEndian net_up (replicate 3 msg_small)
           (mk_state 3 11 [] [])).
  - unfold connected. simpl. lia.
  - simpl. lia.
Defined.

(** One call on a connection on which no write fails. *)
Lemma send_msg_success_step bo net m st :
  never_fails net -> connected st ->
  let st' := send_msg bo net m st in
  errors st' = 0 /\
  client_socket st' = client_socket st /\
  writes (trace st') = writes (trace st) ++ msg_writes bo m /\
  closed (trace st') = closed (trace st).
Proof.
  intros Hnet Hc. cbv zeta. rewrite send_msg_connected by done. cbv zeta.
  unfold header_ret, payload_ret.
  rewrite !(proj2 (Z.ltb_ge _ 0)) by apply Hnet.
  cbn [emit set_errors trace client_socket errors outbound_queue].
  unfold closed, writes, msg_writes. rewrite !omap_app. cbn [omap list_omap].
  by rewrite !app_nil_r, <- app_assoc.
Qed.

(** X5: on a connection on which no write fails, the buffers offered to
    the network over a sequence of messages are, message by message in
    order, the header and then the payload of each; the client is kept,
    nothing is closed, and after at least one message the counter is 0. *)
Theorem deliver_never_fails bo net ms st :
  never_fails net -> connected st ->
  let st' := deliver bo net ms st in
  writes (trace st') = writes (trace st) ++ concat (map (msg_writes bo) ms) /\
  client_socket st' = client_socket st /\
  closed (trace st') = closed (trace st) /\
  (ms <> [] -> errors st' = 0).
Proof.
  intros Hnet. revert st. induction ms as [|m ms IH]; intros st Hc; cbv zeta.
  - cbn. by rewrite app_nil_r.
  - change (deliver bo net (m :: ms) st)
      with (deliver bo net ms (send_msg bo net m st)).
    destruct (send_msg_success_step bo net m st Hnet Hc)
      as (He & Hs & Hw & Hcl).
    destruct (IH (send_msg bo net m st)) as (IHw & IHs & IHcl & IHe);
      [unfold connected in *; lia|].
    rewrite IHw, IHs, IHcl, Hw, Hs, Hcl. cbn [map concat].
    rewrite <- app_assoc. split_and!; try done.
    intros _. destruct ms as [|m' ms']; [done|]. by apply IHe.
Qed.

Lemma deliver_never_fails_witness :
  let st' := deliver LittleEndian (fun _ _ _ => 0) [msg_small; msg_small]
               (mk_state 3 5 [] []) in
  writes (trace st') =
    [[0; 0; 2; 0; 232; 3; 0; 0; 0; 0; 0; 0]; [11; 0; 243; 255];
     [0; 0; 2; 0; 232; 3; 0; 0; 0; 0; 0; 0]; [11; 0; 243; 255]] /\
  client_socket st' = 3 /\ errors st' = 0.
Proof.
  destruct (deliver_never_fails LittleEndian (fun _ _ _ => 0)
              [msg_small; msg_small] (mk_state 3 5 [] []))
    as (Hw & Hs & _ & He).
  - intros tr fd bs. vm_compute. discriminate.
  - unfold connected. simpl. lia.
  - cbv zeta. rewrite Hw, Hs, He by discriminate. by vm_compute.
Defined.

(** * More on the producers *)

Lemma same_delivery_state_xQueueSend m st :
  same_delivery_state st (outcome_state (xQueueSend m st)).
Proof. unfold xQueueSend. by destruct (_ <? _). Qed.

Lemma same_delivery_state_QI2Smsg sample0 now buf size st :
  same_delivery_state st (outcome_state (QI2Smsg sample0 now buf size st)).
Proof.
  unfold QI2Smsg.
  repeat match goal with
         | |- context [if ?b then _ else _] => destruct b
         end; try done. apply same_delivery_state_xQueueSend.
Qed.

Lemma same_delivery_state_QADCmsg soc sample0 now buf size st :
  same_delivery_state st
    (outcome_state (QADCmsg soc sample0 now buf size st)).
Proof.
  unfold QADCmsg.
  repeat match goal with
         | |- context [if ?b then _ else _] => destruct b
         end; try done. apply same_delivery_state_xQueueSend.
Qed.

Lemma same_delivery_state_mic_task_step sample0 now ret nbytes buf st :
  same_delivery_state st
    (outcome_state (mic_task_step sample0 now ret nbytes buf st)).
Proof.
  unfold mic_task_step.
  destruct (_ && _); [apply same_delivery_state_QI2Smsg | done].
Qed.

Lemma same_delivery_state_adc_task_step soc sample0 now ret nbytes buf st :
  same_delivery_state st
    (outcome_state (adc_task_step soc sample0 now ret nbytes buf st)).
Proof.
  unfold adc_task_step.
  destruct (_ && _); [apply same_delivery_state_QADCmsg | done].
Qed.

(** X8: the producers read [client_socket] and never write it: however a
    call of [QI2Smsg] or [QADCmsg] or a turn of [mic_task] or [adc_task]
    ends (returned, blocked on the queue, or stopped by the assertion),
    [client_socket], the failure counter and the history of the
    connection are as before; only the queue can have changed. *)
Theorem producers_keep_delivery_state soc sample0 now ret nbytes buf size st :
  same_delivery_state st (outcome_state (QI2Smsg sample0 now buf size st)) /\
  same_delivery_state st
    (outcome_state (QADCmsg soc sample0 now buf size st)) /\
  same_delivery_state st
    (outcome_state (mic_task_step sample0 now ret nbytes buf st)) /\
  same_delivery_state st
    (outcome_state (adc_task_step soc sample0 now ret nbytes buf st)).
Proof.
  split_and!.
  - apply same_delivery_state_QI2Smsg.
  - apply same_delivery_state_QADCmsg.
  - apply same_delivery_state_mic_task_step.
  - apply same_delivery_state_adc_task_step.
Qed.

Lemma fill_ext f g n d :
  (forall j, (j < n)%nat -> f j = g j) -> fill f n d = fill g n d.
Proof.
  induction n as [|n IH]; intros Hfg; [done|].
  rewrite !fill_S, IH, Hfg by auto with lia. done.
Qed.

Lemma array_get_take a k i : (i < k)%nat -> array_get (take k a) i = array_get a i.
Proof. intros Hi. unfold array_get. by rewrite lookup_take_lt. Qed.

(** A record that lies within the first [k] bytes of the block. *)
Lemma adc_record_take soc buf k i :
  0 < SOC_ADC_DIGI_RESULT_BYTES soc ->
  (Z.of_nat i + 1) * SOC_ADC_DIGI_RESULT_BYTES soc <= Z.of_nat k ->
  adc_record soc (take k buf) i = adc_record soc buf i.
Proof.
  intros Hrb Hi. unfold adc_record.
  rewrite !take_drop_commute, take_take. do 2 f_equal. lia.
Qed.

Section payload_of_samples.
Context (bo : byte_order) (soc : soc_adc) (sample0 : msg_t) (now : Z).
Hypothesis sample0_len :
  Z.of_nat (length (data (buffer sample0))) = DATA_CAPACITY.



End payload_of_samples.



(** X10: only the part of the read buffer that the read has filled is
    used: a call of [QI2Smsg] or [QADCmsg] with a count of [size] samples
    or bytes ends the same way, with the same message, whatever the buffer
    holds past its first [size] entries (what an earlier, longer read left
    there never enters a Frame). *)
Theorem producers_ignore_stale_buffer soc sample0 now buf size st :
  0 <= size ->
  QI2Smsg sample0 now buf size st =
    QI2Smsg sample0 now (take (Z.to_nat size) buf) size st /\
  (0 < SOC_ADC_DIGI_RESULT_BYTES soc ->
   QADCmsg soc sample0 now buf size st =
     QADCmsg soc sample0 now (take (Z.to_nat size) buf) size st).
Proof.
  intros Hsize. split.
  - unfold QI2Smsg, QI2Smsg_sample. rewrite !QI2Smsg_loop_fill.
    rewrite (fill_ext (fun j => array_get buf (2 * j + 1))
               (fun j => array_get (take (Z.to_nat size) buf) (2 * j + 1)));
      [done|].
    intros j Hj. rewrite array_get_take; [done|].
    rewrite Z.quot_div_nonneg in Hj by lia.
    pose proof (Z.mul_div_le size 2). lia.
  - intros Hrb. unfold QADCmsg, QADCmsg_sample. rewrite !QADCmsg_loop_fill.
    set (n := Z.quot size (SOC_ADC_DIGI_RESULT_BYTES soc)).
    rewrite (fill_ext
               (fun i => to_int16 (adc_pack
                  (type2_channel soc (adc_record soc buf i))
                  (type2_data soc (adc_record soc buf i))))
               (fun i => to_int16 (adc_pack
                  (type2_channel soc
                     (adc_record soc (take (Z.to_nat size) buf) i))
                  (type2_data soc
                     (adc_record soc (take (Z.to_nat size) buf) i)))));
      [done|].
    intros i Hi. rewrite adc_record_take; [done | done |].
    unfold n in Hi. rewrite Z.quot_div_nonneg in Hi by lia.
    pose proof (Z.mul_div_le size (SOC_ADC_DIGI_RESULT_BYTES soc)). nia.
Qed.

Lemma producers_ignore_stale_buffer_witness :
  QI2Smsg sample_blank 7 raw_ramp 6 st_connected =
    QI2Smsg sample_blank 7 (take 6 raw_ramp) 6 st_connected /\
  QADCmsg esp32s3 sample_blank 7 (adc_one_record ++ [9; 9; 9; 9]) 4
    st_connected =
    QADCmsg esp32s3 sample_blank 7 adc_one_record 4 st_connected.
Proof.
  destruct (producers_ignore_stale_buffer esp32s3 sample_blank 7 raw_ramp 6
              st_connected) as [Hmic _]; [lia|].
  destruct (producers_ignore_stale_buffer esp32s3 sample_blank 7
              (adc_one_record ++ [9; 9; 9; 9]) 4 st_connected)
    as [_ Hadc]; [lia|].
  split; [exact Hmic | apply Hadc; simpl; lia].
Defined.

(** X11: a short read still makes a Frame: with a client connected, a
    successful microphone read of 1 to 3 bytes (less than one pair of
    samples), or an ADC read of fewer bytes than one conversion record,
    hands the queue a message with [length] 0 and [end] 0, for which
    [send_msg] writes the header and a payload of no bytes. *)
Theorem short_read_makes_empty_frame bo soc sample0 now nbytes buf st :
  connected st -> 0 < nbytes ->
  (nbytes < 4 ->
   let m := QI2Smsg_sample sample0 now buf 0 in
   mic_task_step sample0 now ESP_OK nbytes buf st = xQueueSend m st /\
   length_ (header m) = 0 /\ end_ (buffer m) = 0 /\
   payload_bytes bo (buffer m) = []) /\
  (nbytes < SOC_ADC_DIGI_RESULT_BYTES soc -> nbytes < 2 ^ 31 ->
   let m := QADCmsg_sample soc sample0 now buf 0 in
   adc_task_step soc sample0 now ESP_OK nbytes buf st = xQueueSend m st /\
   length_ (header m) = 0 /\ end_ (buffer m) = 0 /\
   payload_bytes bo (buffer m) = []).
Proof.
  intros Hc Hpos. split.
  - intros Hn. cbv zeta. split_and!; try done.
    unfold mic_task_step. rewrite Z.eqb_refl, (proj2 (Z.ltb_lt _ _)) by lia.
    cbn [andb].
    assert (nbytes / 2 = 0 \/ nbytes / 2 = 1) as Hhalf.
    { assert (0 <= nbytes / 2 < 2)
        by (split; [apply Z.div_pos | apply Z.div_lt_upper_bound]; lia).
      lia. }
    rewrite QI2Smsg_sends by
      (done || destruct Hhalf as [-> | ->]; by vm_compute).
    by destruct Hhalf as [-> | ->].
  - intros Hn Hint. cbv zeta. split_and!; try done.
    unfold adc_task_step. rewrite Z.eqb_refl, (proj2 (Z.ltb_lt _ _)) by lia.
    cbn [andb]. rewrite to_int_small by lia.
    assert (Z.quot nbytes (SOC_ADC_DIGI_RESULT_BYTES soc) = 0) as Hq
      by (apply Z.quot_small; lia).
    rewrite QADCmsg_sends by (done || rewrite Hq; by vm_compute).
    by rewrite Hq.
Qed.

Lemma short_read_makes_empty_frame_witness :
  let m := QI2Smsg_sample sample_blank 7 raw_ramp 0 in
  mic_task_step sample_blank 7 ESP_OK 3 raw_ramp st_connected
    = xQueueSend m st_connected /\
  length_ (header m) = 0 /\ end_ (buffer m) = 0 /\
  payload_bytes LittleEndian (buffer m) = [].
Proof.
  destruct (short_read_makes_empty_frame LittleEndian esp32s3 sample_blank 7
              3 raw_ramp st_connected) as [Hmic _].
  - unfold connected. simpl. lia.
  - lia.
  - apply Hmic. lia.
Defined.

(** X12: the assertions of the producers cannot fail when the reads keep
    to the size of the buffer they are given: a turn of [mic_task] whose
    read returned at most [sizeof(i2s_read_buf)] bytes, or a turn of
    [adc_task] whose read returned at most [sizeof(adc_dma_buf)] bytes,
    never ends in the failed assertion. *)
Theorem read_within_buffer_never_aborts soc sample0 now ret nbytes buf st st' :
  0 <= nbytes ->
  (nbytes <= sizeof_i2s_read_buf ->
   mic_task_step sample0 now ret nbytes buf st <> Aborted st') /\
  (0 < SOC_ADC_DIGI_RESULT_BYTES soc -> sizeof_adc_dma_buf soc < 2 ^ 31 ->
   nbytes <= sizeof_adc_dma_buf soc ->
   adc_task_step soc sample0 now ret nbytes buf st <> Aborted st').
Proof.
  intros Hpos. split.
  - unfold sizeof_i2s_read_buf, MIC_BUFFER_SIZE. intros Hn.
    unfold mic_task_step. destruct (_ && _); [|done].
    assert (0 <= nbytes / 2 <= 512) as Hhalf
      by (split; [apply Z.div_pos | apply Z.div_le_upper_bound]; lia).
    rewrite to_int_small by lia.
    destruct (decide (client_socket st < 0)).
    { by rewrite QI2Smsg_disconnected. }
    rewrite QI2Smsg_sends.
    + unfold xQueueSend. by destruct (_ <? _).
    + unfold connected. lia.
    + rewrite Z.quot_div_nonneg by lia. unfold MIC_BUFFER_SIZE.
      apply Z.div_le_upper_bound; lia.
  - unfold sizeof_adc_dma_buf, ADC_BUFFER_SIZE. intros Hrb Hbuf Hn.
    unfold adc_task_step. destruct (_ && _); [|done].
    rewrite to_int_small by lia.
    destruct (decide (client_socket st < 0)).
    { by rewrite QADCmsg_disconnected. }
    rewrite QADCmsg_sends.
    + unfold xQueueSend. by destruct (_ <? _).
    + unfold connected. lia.
    + rewrite Z.quot_div_nonneg by lia. unfold ADC_BUFFER_SIZE.
      apply Z.div_le_upper_bound; lia.
Qed.

Lemma read_within_buffer_never_aborts_witness :
  mic_task_step sample_blank 7 ESP_OK 1024 raw_ramp st_connected
    <> Aborted st_connected /\
  adc_task_step esp32s3 sample_blank 7 ESP_OK 1024 [] st_connected
    <> Aborted st_connected.
Proof.
  destruct (read_within_buffer_never_aborts esp32s3 sample_blank 7 ESP_OK
              1024 raw_ramp st_connected st_connected) as [Hmic _]; [lia|].
  destruct (read_within_buffer_never_aborts esp32s3 sample_blank 7 ESP_OK
              1024 [] st_connected st_connected) as [_ Hadc]; [lia|].
  split.
  - apply Hmic. vm_compute. discriminate.
  - apply Hadc; [simpl; lia | vm_compute; reflexivity |
                 vm_compute; discriminate].
Defined.

(** X13: the packing of a conversion record can be undone: of the sixteen
    bits of the stored sample, the upper four are [channel & 0xF] and the
    lower twelve are [data & 0xFFF]; so a channel below 16 and a value
    below 4096 are read back exactly. *)
Theorem adc_pack_unpack chan dat :
  let bits := to_uint16 (to_int16 (adc_pack chan dat)) in
  Z.shiftr bits 12 = Z.land chan 0xF /\
  Z.land bits 0xFFF = Z.land dat 0xFFF /\
  (0 <= chan < 16 -> Z.shiftr bits 12 = chan) /\
  (0 <= dat < 4096 -> Z.land bits 0xFFF = dat).
Proof.
  cbv zeta. rewrite to_uint16_adc_sample. unfold adc_pack.
  change 0xF with (Z.ones 4). change 0x0FFF with (Z.ones 12).
  change 0xFFF with (Z.ones 12).
  assert (Z.shiftr (Z.lor (Z.shiftl (Z.land chan (Z.ones 4)) 12)
                      (Z.land dat (Z.ones 12))) 12
          = Z.land chan (Z.ones 4)) as Hhi.
  { rewrite Z.shiftr_lor, Z.shiftr_shiftl_l by lia.
    change (12 - 12) with 0. rewrite Z.shiftl_0_r.
    rewrite (Z.shiftr_div_pow2 (Z.land dat (Z.ones 12))) by lia.
    rewrite (Z.land_ones dat) by lia.
    rewrite Z.div_small by (apply Z.mod_pos_bound; lia).
    apply Z.lor_0_r. }
  assert (Z.land (Z.lor (Z.shiftl (Z.land chan (Z.ones 4)) 12)
                    (Z.land dat (Z.ones 12))) (Z.ones 12)
          = Z.land dat (Z.ones 12)) as Hlo.
  { rewrite Z.land_lor_distr_l, <- Z.land_assoc, Z.land_diag.
    rewrite (Z.land_ones (Z.shiftl _ 12)) by lia.
    rewrite Z.shiftl_mul_pow2, Z.mod_mul by lia.
    apply Z.lor_0_l. }
  rewrite Hhi, Hlo. split_and!; try done.
  - intros Hc. rewrite Z.land_ones by lia. apply Z.mod_small. lia.
  - intros Hd. rewrite Z.land_ones by lia. apply Z.mod_small. lia.
Qed.

Lemma adc_pack_unpack_witness :
  let bits := to_uint16 (to_int16 (adc_pack 2 0xABC)) in
  Z.shiftr bits 12 = 2 /\ Z.land bits 0xFFF = 0xABC.
Proof.
  destruct (adc_pack_unpack 2 0xABC) as (_ & _ & Hc & Hd).
  split; [apply Hc | apply Hd]; lia.
Defined.

(** * The server task *)

(** X15: the set-up of [tcp_server_task] reaches the [accept] loop exactly
    when [socket], [bind] and [listen] all succeed; otherwise the task
    deletes itself. It makes no call of [accept], whatever such a call
    would return; when [bind] or [listen] fails it closes the socket it
    has just created, when [socket] fails there is nothing to close, and
    on success it closes nothing. *)
Theorem tcp_server_setup_outcome socket_ret bind_ret listen_ret srv :
  let srv' := tcp_server_setup socket_ret bind_ret listen_ret srv in
  let fd := to_int socket_ret in
  server_socket srv' = fd /\
  (at_ srv' = AtAccept \/ at_ srv' = Deleted) /\
  (at_ srv' = AtAccept <->
     0 <= fd /\ 0 <= to_int bind_ret /\ 0 <= to_int listen_ret) /\
  accept_calls (server_trace srv') = accept_calls (server_trace srv) /\
  (at_ srv' = AtAccept ->
     srv_closed (server_trace srv') = srv_closed (server_trace srv)) /\
  (at_ srv' = Deleted ->
     srv_closed (server_trace srv') =
       srv_closed (server_trace srv) ++ (if fd <? 0 then [] else [fd])).
Proof.
  cbv zeta. unfold tcp_server_setup.
  cbn [set_server_socket srv_emit set_at server_socket at_ server_trace].
  destruct (Z.ltb_spec (to_int socket_ret) 0);
    [|destruct (Z.ltb_spec (to_int bind_ret) 0);
      [|destruct (Z.ltb_spec (to_int listen_ret) 0)]];
    cbn [set_server_socket srv_emit set_at server_socket at_ server_trace];
    unfold accept_calls, srv_closed; rewrite !omap_app; cbn [omap list_omap];
    rewrite ?app_nil_r;
    split_and!; try done; auto;
    try (split; [intros [=] | lia]);
    try (split; [intros _; lia | done]).
Qed.

(** * The whole program *)

Section system.
Context (bo : byte_order) (net : network) (soc : soc_adc).

Lemma tcp_server_setup_facts socket_ret bind_ret listen_ret srv :
  let srv' := tcp_server_setup socket_ret bind_ret listen_ret srv in
  accepted (server_trace srv') = accepted (server_trace srv) /\
  at_ srv' <> AtWait /\
  (to_int socket_ret < 0 \/ to_int bind_ret < 0 \/ to_int listen_ret < 0 ->
   at_ srv' = Deleted).
Proof.
  cbv zeta. unfold tcp_server_setup.
  cbn [set_server_socket srv_emit set_at server_socket at_ server_trace].
  destruct (Z.ltb_spec (to_int socket_ret) 0);
    [|destruct (Z.ltb_spec (to_int bind_ret) 0);
      [|destruct (Z.ltb_spec (to_int listen_ret) 0)]];
    cbn [set_server_socket srv_emit set_at server_socket at_ server_trace];
    unfold accepted; rewrite !omap_app; cbn [omap list_omap];
    rewrite ?app_nil_r; split_and!; try done. lia.
Qed.

(** What an action of a task can do to the connection. *)
Lemma task_action_socket st st' :
  task_action bo net soc st st' ->
  (client_socket st' = client_socket st /\
   closed (trace st') = closed (trace st)) \/
  (0 <= client_socket st /\ client_socket st' = -1 /\
   closed (trace st') = closed (trace st) ++ [client_socket st]).
Proof.
  intros [sample0 now ret n buf st1 _ _ _ Hr
         | sample0 now ret n buf st1 _ _ Hr | st1 Hr].
  - pose proof (same_delivery_state_mic_task_step sample0 now ret n buf st)
      as (Hs & _ & Ht).
    rewrite Hr in Hs, Ht. cbn [outcome_state] in Hs, Ht.
    left. by rewrite Hs, Ht.
  - pose proof (same_delivery_state_adc_task_step soc sample0 now ret n buf
                  st) as (Hs & _ & Ht).
    rewrite Hr in Hs, Ht. cbn [outcome_state] in Hs, Ht.
    left. by rewrite Hs, Ht.
  - unfold OutBoundTask_step in Hr.
    destruct (outbound_queue st) as [|m q]; [done|]. injection Hr as <-.
    destruct (send_msg_cases bo net m (set_outbound_queue q st))
      as (_ & Hsock & _).
    cbn [set_outbound_queue client_socket trace] in Hsock. done.
Qed.

(** With no client, an action of a task leaves the connection as it is
    and writes nothing. *)
Lemma task_action_disconnected st st' :
  task_action bo net soc st st' -> disconnected st ->
  same_delivery_state st st'.
Proof.
  intros [sample0 now ret n buf st1 _ _ _ Hr
         | sample0 now ret n buf st1 _ _ Hr | st1 Hr] Hd.
  - unfold mic_task_step in Hr. destruct (_ && _).
    + rewrite QI2Smsg_disconnected in Hr by done. by injection Hr as <-.
    + by injection Hr as <-.
  - unfold adc_task_step in Hr. destruct (_ && _).
    + rewrite QADCmsg_disconnected in Hr by done. by injection Hr as <-.
    + by injection Hr as <-.
  - unfold OutBoundTask_step in Hr.
    destruct (outbound_queue st) as [|m q] eqn:Hq; [done|].
    injection Hr as <-. by rewrite send_msg_disconnected.
Qed.

Lemma task_action_action st st' :
  task_action bo net soc st st' -> action bo net soc st st'.
Proof.
  intros [sample0 now ret n buf st1 H0 Hbuf Hn Hr
         | sample0 now ret n buf st1 H0 Hn Hr | st1 Hr].
  - by eapply action_mic.
  - by eapply action_adc.
  - by apply action_deliver.
Qed.

Lemma current_client_disconnected st :
  disconnected st -> current_client st = [].
Proof. unfold disconnected, current_client. intros Hd. by decide_ltb. Qed.

Lemma current_client_connected st :
  connected st -> current_client st = [client_socket st].
Proof. unfold connected, current_client. intros Hc. by decide_ltb. Qed.

Lemma clients_accounted_step s s' :
  clients_accounted s -> system_step bo net soc s s' -> clients_accounted s'.
Proof.
  intros [Hacc Hat] Hstep.
  destruct Hstep as [srv st s0 b l Hstart | srv st a | srv st st' Htask];
    cbn [fst snd] in *.
  - destruct (tcp_server_setup_facts s0 b l srv) as (Ha & Hw & _).
    split; cbn [fst snd]; [by rewrite Ha|].
    intros _. apply Hat. by rewrite Hstart.
  - unfold tcp_server_task_step. destruct (at_ srv) eqn:Hpc.
    + split; cbn [fst snd]; [done | intros _; by apply Hat].
    + assert (disconnected st) as Hd by by apply Hat.
      rewrite current_client_disconnected, app_nil_r in Hacc by done.
      unfold tcp_server_accept.
      cbn [set_client_socket client_socket trace].
      destruct (Z.ltb_spec (to_int a) 0) as [Hneg|Hpos];
        (split; [|done]);
        cbn [fst snd srv_emit set_at server_trace at_ server_socket
             set_client_socket client_socket trace];
        unfold accepted; rewrite !omap_app; cbn [omap list_omap];
        fold (accepted (server_trace srv)); rewrite ?app_nil_r.
      * rewrite (proj2 (Z.ltb_lt _ _)) by done.
        rewrite current_client_disconnected, !app_nil_r by done. done.
      * rewrite (proj2 (Z.ltb_ge _ _)) by done.
        rewrite current_client_connected by done. by rewrite Hacc.
    + destruct (Z.leb_spec 0 (client_socket st)) as [Hc|Hd]; split;
        cbn [fst snd srv_emit set_at server_trace at_];
        unfold accepted; rewrite ?omap_app; cbn [omap list_omap];
        fold (accepted (server_trace srv)); rewrite ?app_nil_r; done.
    + split; cbn [fst snd]; [done | intros _; by apply Hat].
  - destruct (task_action_socket st st' Htask)
      as [(Hs & Hcl) | (Hc & Hs & Hcl)]; split; cbn [fst snd].
    + rewrite Hacc, Hcl. unfold current_client. by rewrite Hs.
    + unfold disconnected in *. rewrite Hs. done.
    + rewrite Hacc, Hcl, current_client_connected by done.
      rewrite current_client_disconnected, app_nil_r
        by (unfold disconnected; lia). done.
    + intros _. unfold disconnected. lia.
Qed.

(** X16: at most one client at a time, and no descriptor is lost: in
    every state the program reaches, the client descriptors [accept] has
    handed out are, in order, exactly those [send_msg] has closed,
    followed by the one in [client_socket] when a client is connected;
    and whenever the server task is not in its waiting loop (so also
    whenever it calls [accept]) no client is connected. *)
Theorem single_client_invariant srv st :
  system_reachable bo net soc (srv, st) ->
  accepted (server_trace srv) = closed (trace st) ++ current_client st /\
  (at_ srv <> AtWait -> disconnected st).
Proof.
  unfold system_reachable. intros Hr.
  change (clients_accounted (srv, st)). revert Hr.
  generalize (srv, st). apply rtc_ind_r.
  - split; [reflexivity|]. intros _. unfold disconnected. by vm_compute.
  - intros s s' _ Hstep IH. by eapply clients_accounted_step.
Qed.

End system.

Lemma single_client_invariant_witness :
  let s := tcp_server_task_step 3
             (tcp_server_setup 5 0 0 server_boot, st_boot) in
  accepted (server_trace s.1) = closed (trace s.2) ++ current_client s.2 /\
  (at_ s.1 <> AtWait -> disconnected s.2).
Proof.
  apply (single_client_invariant LittleEndian net_up esp32s3).
  unfold system_reachable.
  eapply rtc_l.
  { apply (step_setup LittleEndian net_up esp32s3 server_boot st_boot 5 0 0).
    reflexivity. }
  eapply rtc_l.
  { apply (step_server LittleEndian net_up esp32s3
             (tcp_server_setup 5 0 0 server_boot) st_boot 3). }
  apply rtc_refl.
Defined.

Section system_runs.
Context (bo : byte_order) (net : network) (soc : soc_adc).

Lemma deleted_run srv st s :
  at_ srv = Deleted -> disconnected st ->
  rtc (system_step bo net soc) (srv, st) s -> service_down srv st s.
Proof.
  intros Hdel Hd. revert s. apply rtc_ind_r.
  - by split.
  - intros s s' _ Hstep (Hsrv & Hs & He & Ht).
    destruct Hstep as [srv1 st1 s0 b l Hstart | srv1 st1 a
                      | srv1 st1 st' Htask]; cbn [fst snd] in *; subst srv1.
    + congruence.
    + unfold tcp_server_task_step. rewrite Hdel. by split.
    + destruct (task_action_disconnected bo net soc st1 st' Htask)
        as (Hs' & He' & Ht').
      { unfold disconnected in *. lia. }
      split; [done|]. cbn [fst snd]. split_and!; congruence.
Qed.

(** The set-up makes no call of [accept]. *)
Lemma tcp_server_setup_accept_calls socket_ret bind_ret listen_ret srv :
  accept_calls
    (server_trace (tcp_server_setup socket_ret bind_ret listen_ret srv)) =
  accept_calls (server_trace srv).
Proof.
  unfold tcp_server_setup.
  repeat match goal with
         | |- context [if ?b then _ else _] => destruct b
         end;
    cbn [set_server_socket srv_emit set_at server_socket at_ server_trace];
    unfold accept_calls; rewrite !omap_app; cbn [omap list_omap];
    by rewrite ?app_nil_r.
Qed.

End system_runs.

Lemma sample_blank_ok : msg_t_ok sample_blank.
Proof.
  split; cbn; try lia; try done.
  apply (bool_decide_unpack _). by vm_compute.
Defined.

(** X17: a failed set-up is final: when [socket], [bind] or [listen]
    fails, the set-up has made no call of [accept], and whatever steps the
    server task and the other tasks take afterwards the server task stays
    deleted, no call of [accept] is ever made (not even one that fails),
    no client is connected, and nothing is written to the network. *)
Theorem failed_setup_never_serves bo net soc socket_ret bind_ret listen_ret
    srv st s' :
  to_int socket_ret < 0 \/ to_int bind_ret < 0 \/ to_int listen_ret < 0 ->
  disconnected st ->
  rtc (system_step bo net soc)
    (tcp_server_setup socket_ret bind_ret listen_ret srv, st) s' ->
  at_ s'.1 = Deleted /\
  accept_calls (server_trace s'.1) = accept_calls (server_trace srv) /\
  client_socket s'.2 = client_socket st /\
  errors s'.2 = errors st /\
  trace s'.2 = trace st.
Proof.
  intros Hfail Hd Hrun.
  destruct (tcp_server_setup_facts socket_ret bind_ret listen_ret srv)
    as (_ & _ & Hdel).
  specialize (Hdel Hfail).
  destruct (deleted_run bo net soc _ st s' Hdel Hd Hrun)
    as (-> & Hs & He & Ht).
  by rewrite tcp_server_setup_accept_calls.
Qed.

Lemma failed_setup_never_serves_witness :
  let srv0 := tcp_server_setup 5 (-1) 0 server_boot in
  let st0 := set_outbound_queue [msg_small] st_boot in
  let s' := (srv0, st_boot) in
  at_ s'.1 = Deleted /\
  accept_calls (server_trace s'.1) = accept_calls (server_trace server_boot) /\
  client_socket s'.2 = client_socket st0 /\
  errors s'.2 = errors st0 /\
  trace s'.2 = trace st0.
Proof.
  apply (failed_setup_never_serves LittleEndian net_up esp32s3 5 (-1) 0
           server_boot (set_outbound_queue [msg_small] st_boot)).
  - right. left. vm_compute. reflexivity.
  - unfold disconnected. simpl. lia.
  - eapply rtc_l.
    { apply (step_server LittleEndian net_up esp32s3
               (tcp_server_setup 5 (-1) 0 server_boot)
               (set_outbound_queue [msg_small] st_boot) 4). }
    eapply rtc_l.
    { apply (step_task LittleEndian net_up esp32s3
               (tcp_server_setup 5 (-1) 0 server_boot)
               (set_outbound_queue [msg_small] st_boot) st_boot).
      apply task_deliver. by vm_compute. }
    eapply rtc_l; [|apply rtc_refl].
    apply (step_task LittleEndian net_up esp32s3
             (tcp_server_setup 5 (-1) 0 server_boot) st_boot st_boot).
    apply (task_mic LittleEndian net_up esp32s3 _ sample_blank 7 ESP_OK 1024
             raw_ramp).
    + exact sample_blank_ok.
    + apply (bool_decide_unpack _). by vm_compute.
    + lia.
    + by vm_compute.
Defined.

(** X18: a failed [accept] is final too: the server task logs, closes the
    listening socket, and deletes itself; whatever steps the server task
    and the other tasks take afterwards, the failed call is the last call
    of [accept] ever made, no client is connected, and nothing is written
    to the network. *)
Theorem failed_accept_never_serves bo net soc accept_ret srv st s' :
  at_ srv = AtAccept -> to_int accept_ret < 0 ->
  rtc (system_step bo net soc) (tcp_server_task_step accept_ret (srv, st)) s' ->
  at_ s'.1 = Deleted /\
  accept_calls (server_trace s'.1) =
    accept_calls (server_trace srv) ++
      [(server_socket srv, to_int accept_ret)] /\
  srv_closed (server_trace s'.1) =
    srv_closed (server_trace srv) ++ [server_socket srv] /\
  disconnected s'.2 /\
  errors s'.2 = errors st /\
  trace s'.2 = trace st.
Proof.
  intros Hat Hneg. unfold tcp_server_task_step. rewrite Hat.
  unfold tcp_server_accept. cbn [set_client_socket client_socket].
  rewrite (proj2 (Z.ltb_lt _ _)) by done. intros Hrun.
  apply deleted_run in Hrun as (-> & Hs & He & Ht);
    [|done|unfold disconnected; cbn; lia].
  cbn [fst snd srv_emit set_at server_trace at_ server_socket
       set_client_socket client_socket trace errors outbound_queue] in *.
  unfold accept_calls, srv_closed, disconnected. rewrite !omap_app.
  cbn [omap list_omap]. rewrite !app_nil_r. split_and!; try done. lia.
Qed.

Lemma failed_accept_never_serves_witness :
  let srv0 := tcp_server_setup 5 0 0 server_boot in
  let st0 := set_outbound_queue [msg_small] st_boot in
  let s1 := tcp_server_task_step (-1) (srv0, st0) in
  let s' := (s1.1, st_boot) in
  at_ s'.1 = Deleted /\
  accept_calls (server_trace s'.1) =
    accept_calls (server_trace srv0) ++ [(5, -1)] /\
  srv_closed (server_trace s'.1) = srv_closed (server_trace srv0) ++ [5] /\
  disconnected s'.2 /\
  errors s'.2 = errors st0 /\
  trace s'.2 = trace st0.
Proof.
  apply (failed_accept_never_serves LittleEndian net_up esp32s3 (-1)
           (tcp_server_setup 5 0 0 server_boot)
           (set_outbound_queue [msg_small] st_boot)).
  - reflexivity.
  - vm_compute. reflexivity.
  - eapply rtc_l.
    { apply (step_server LittleEndian net_up esp32s3
               (tcp_server_task_step (-1)
                  (tcp_server_setup 5 0 0 server_boot,
                   set_outbound_queue [msg_small] st_boot)).1
               (set_outbound_queue [msg_small] st_boot) 4). }
    eapply rtc_l.
    { apply (step_task LittleEndian net_up esp32s3
               (tcp_server_task_step (-1)
                  (tcp_server_setup 5 0 0 server_boot,
                   set_outbound_queue [msg_small] st_boot)).1
               (set_outbound_queue [msg_small] st_boot) st_boot).
      apply task_deliver. by vm_compute. }
    eapply rtc_l; [|apply rtc_refl].
    apply (step_task LittleEndian net_up esp32s3
             (tcp_server_task_step (-1)
                (tcp_server_setup 5 0 0 server_boot,
                 set_outbound_queue [msg_small] st_boot)).1
             st_boot st_boot).
    apply (task_mic LittleEndian net_up esp32s3 _ sample_blank 7 ESP_OK 1024
             raw_ramp).
    + exact sample_blank_ok.
    + apply (bool_decide_unpack _). by vm_compute.
    + lia.
    + by vm_compute.
Defined.

Lemma tcp_server_task_step_queue accept_ret srv st :
  outbound_queue (tcp_server_task_step accept_ret (srv, st)).2 =
    outbound_queue st.
Proof.
  unfold tcp_server_task_step.
  destruct (at_ srv); try done; by destruct (_ <? _) || by destruct (_ <=? _).
Qed.

(** X14: in every state the whole program reaches, the queue holds at
    most 256 messages, and every one of them holds a Frame: the source is
    0 or 1, the metadata 0, [buffer.end] equals [header.length] and is at
    most 256, and every field is within its C type. So every message that
    [OutBoundTask] takes out and gives to [send_msg] is of that kind. *)
Theorem system_queue_invariant bo net soc srv st :
  0 < SOC_ADC_DIGI_RESULT_BYTES soc ->
  system_reachable bo net soc (srv, st) ->
  Z.of_nat (length (outbound_queue st)) <= QUEUE_LENGTH /\
  Forall frame_ok (outbound_queue st).
Proof.
  intros Hrb. unfold system_reachable. intros Hr.
  change (queue_ok (srv, st).2). revert Hr. generalize (srv, st).
  apply rtc_ind_r.
  - split; [by vm_compute | constructor].
  - intros s s' _ Hstep IH.
    destruct Hstep as [srv1 st1 s0 b l Hstart | srv1 st1 a
                      | srv1 st1 st' Htask]; cbn [fst snd] in *.
    + done.
    + destruct IH as [Hlen Hall]. split;
        by rewrite tcp_server_task_step_queue.
    + eapply queue_ok_action; [done | done |].
      by apply task_action_action.
Qed.

Lemma system_queue_invariant_witness :
  let s := tcp_server_task_step 3
             (tcp_server_setup 5 0 0 server_boot, st_boot) in
  let st := set_outbound_queue [QI2Smsg_sample sample_blank 7 raw_ramp 256]
              s.2 in
  Z.of_nat (length (outbound_queue st)) <= QUEUE_LENGTH /\
  Forall frame_ok (outbound_queue st).
Proof.
  apply (system_queue_invariant LittleEndian net_up esp32s3
           (tcp_server_task_step 3
              (tcp_server_setup 5 0 0 server_boot, st_boot)).1).
  { simpl. lia. }
  unfold system_reachable.
  eapply rtc_l.
  { apply (step_setup LittleEndian net_up esp32s3 server_boot st_boot 5 0 0).
    reflexivity. }
  eapply rtc_l.
  { apply (step_server LittleEndian net_up esp32s3
             (tcp_server_setup 5 0 0 server_boot) st_boot 3). }
  eapply rtc_l; [|apply rtc_refl].
  apply (step_task LittleEndian net_up esp32s3
           (tcp_server_task_step 3
              (tcp_server_setup 5 0 0 server_boot, st_boot)).1
           (tcp_server_task_step 3
              (tcp_server_setup 5 0 0 server_boot, st_boot)).2).
  apply (task_mic LittleEndian net_up esp32s3 _ sample_blank 7 ESP_OK 1024
           raw_ramp).
  - exact sample_blank_ok.
  - apply (bool_decide_unpack _). by vm_compute.
  - lia.
  - by vm_compute.
Defined.
